(** * aptos-indexer: the resumable streaming consumer

    A shallow embedding of [src/examples/01_sqlite.ts] (the generator
    [streamAndPersistTransactions] and the top-level loop that drives it) and
    of [src/examples/00_basic.ts] (the same loop, driving [streamTransactions]
    directly), with the properties of the checkpointing protocol.

    - bigints are [Z]; a JS [number] is an IEEE-754 double, [spec_float];
    - the SQLite table [kv(k primary key, v)] is a finite map from keys to
      values, [gmap string SqlValue];
    - the async iterator returned by [streamTransactions] (whose
      implementation is imported from [".."]) is a parameter: the sequence of
      items its [next()] produces;
    - the generator and the [for await] loop that drives it are run together,
      producing the trace of the generator's observable actions in program
      order, the final database and the way the loop was left. *)

From Stdlib Require Import ZArith String Ascii List DecimalString.
From Stdlib.Floats Require Import SpecFloat.
From Stdlib Require DecimalPos.
From stdpp Require Import base gmap strings list.

Local Open Scope string_scope.
Local Open Scope list_scope.
Local Open Scope Z_scope.

(** ** JavaScript values that the example manipulates *)

(** Exceptions that can end the program. [Error] is [new Error(message)];
    [Rejection] is whatever the imported stream rejects with. *)
Inductive Thrown :=
| TypeError
| RangeError
| SyntaxError
| SQLiteError
| Error (message : string)
| Rejection (reason : string).

(** A value read from column [v]: [string | number | bigint]
    (01_sqlite.ts line 38). *)
Inductive SqlValue :=
| VString (s : string)
| VNumber (n : spec_float)
| VBigInt (z : Z).

(** *** [BigInt(value)] *)

(** White space and line terminators of ECMAScript among the code units
    below 256 (TAB, LF, VT, FF, CR, SP, NBSP). A character of a Rocq string
    stands for the code unit of the same number. *)
Definition isStrWhiteSpaceChar (c : ascii) : bool :=
  let n := N_of_ascii c in
  (N.eqb n 9 || N.eqb n 10 || N.eqb n 11 || N.eqb n 12 || N.eqb n 13
   || N.eqb n 32 || N.eqb n 160)%bool.

Fixpoint trimStart (cs : list ascii) : list ascii :=
  match cs with
  | c :: cs' => if isStrWhiteSpaceChar c then trimStart cs' else cs
  | [] => []
  end.

Definition trim (cs : list ascii) : list ascii :=
  rev (trimStart (rev (trimStart cs))).

(** Value of a digit in radix up to 16, letters in either case. *)
Definition digitValue (c : ascii) : option Z :=
  let n := Z.of_N (N_of_ascii c) in
  if (48 <=? n) && (n <=? 57) then Some (n - 48)
  else if (97 <=? n) && (n <=? 102) then Some (n - 87)
  else if (65 <=? n) && (n <=? 70) then Some (n - 55)
  else None.

Fixpoint parseDigits (radix acc : Z) (cs : list ascii) : option Z :=
  match cs with
  | [] => Some acc
  | c :: cs' =>
      match digitValue c with
      | Some d => if d <? radix then parseDigits radix (acc * radix + d) cs' else None
      | None => None
      end
  end.

(** One digit at least: [DecimalDigits], [HexDigits], ... are not empty. *)
Definition parseDigits1 (radix : Z) (cs : list ascii) : option Z :=
  match cs with
  | [] => None
  | _ => parseDigits radix 0 cs
  end.

Definition isOneOf (c a b : ascii) : bool :=
  (Ascii.eqb c a || Ascii.eqb c b)%bool.

(** [StringToBigInt]: the grammar [StringIntegerLiteral]. Surrounding white
    space is dropped, the empty literal is [0n], a sign is allowed before
    decimal digits only, and [0x]/[0o]/[0b] introduce the other radices.
    [None] is the [undefined] for which [BigInt] throws a [SyntaxError]. *)
Definition StringToBigInt (s : string) : option Z :=
  match trim (list_ascii_of_string s) with
  | [] => Some 0
  | c0 :: rest =>
      match rest with
      | c1 :: ds =>
          if Ascii.eqb c0 "0" && isOneOf c1 "x" "X" then parseDigits1 16 ds
          else if Ascii.eqb c0 "0" && isOneOf c1 "o" "O" then parseDigits1 8 ds
          else if Ascii.eqb c0 "0" && isOneOf c1 "b" "B" then parseDigits1 2 ds
          else if Ascii.eqb c0 "+" then parseDigits1 10 rest
          else if Ascii.eqb c0 "-" then Z.opp <$> parseDigits1 10 rest
          else parseDigits1 10 (c0 :: rest)
      | [] => parseDigits1 10 [c0]
      end
  end.

(** [NumberToBigInt]: an integral double converts exactly, anything else
    (a fraction, an infinity, NaN) is a [RangeError]. The finite double
    [S754_finite s m e] is [(-1)^s * m * 2^e]. *)
Definition NumberToBigInt (n : spec_float) : Thrown + Z :=
  match n with
  | S754_zero _ => inr 0
  | S754_infinity _ => inl RangeError
  | S754_nan => inl RangeError
  | S754_finite s m e =>
      let sign := if s then -1 else 1 in
      if 0 <=? e then inr (sign * (Z.pos m * 2 ^ e))
      else if Z.pos m mod 2 ^ (- e) =? 0 then inr (sign * (Z.pos m / 2 ^ (- e)))
      else inl RangeError
  end.

Definition BigInt (value : SqlValue) : Thrown + Z :=
  match value with
  | VBigInt z => inr z
  | VNumber n => NumberToBigInt n
  | VString s =>
      match StringToBigInt s with
      | Some z => inr z
      | None => inl SyntaxError
      end
  end.

(** ** The checkpoint store: [bun:sqlite]'s [Database] *)

(** The one table the program uses. [kv = None]: the table does not exist
    yet. Keys are the texts the program binds to [k]. Column [v] has no
    declared type: a row keeps the value bound to it as it was given. The
    database is opened with [safeIntegers: true] (01_sqlite.ts line 63):
    integers are read as bigints, and a bigint can be bound only when it
    is a signed 64-bit integer. *)
Record Database := { kv : option (gmap string SqlValue) }.

(** The row object [{ v }] returned by [.get()]. *)
Record Row := { v : SqlValue }.

(** [db.exec(`create table if not exists kv(k primary key, v)`)] *)
Definition exec_create_table (db : Database) : Database :=
  match kv db with
  | Some _ => db
  | None => {| kv := Some ∅ |}
  end.

(** [db.query(`select v from kv where k = 'startingVersion'`).get()]:
    the row, or [null] when there is none. *)
Definition query_get (db : Database) : Thrown + option Row :=
  match kv db with
  | None => inl SQLiteError
  | Some t => inr (Build_Row <$> t !! "startingVersion")
  end.

(** The bigints that SQLite's INTEGER holds. *)
Definition fits_int64 (value : Z) : bool :=
  (- 2 ^ 63 <=? value) && (value <? 2 ^ 63).

(** [db.query(`insert into kv(k, v) values('startingVersion', ?)
      on conflict(k) do update set v = excluded.v`).run(value)].
    Binding a bigint outside the signed 64-bit range throws a [RangeError]
    and leaves the table as it is. *)
Definition query_run (value : Z) (db : Database) : Thrown + Database :=
  match kv db with
  | None => inl SQLiteError
  | Some t =>
      if fits_int64 value then
        inr {| kv := Some (<["startingVersion" := VBigInt value]> t) |}
      else inl RangeError
  end.

(** What the store holds under ['startingVersion'], whatever the state of
    the table. *)
Definition checkpoint (db : Database) : option SqlValue :=
  match kv db with
  | None => None
  | Some t => t !! "startingVersion"
  end.

(** ** The event sequence of [streamTransactions] *)

(** A transaction, as far as the examples look into it: [version] is
    optional in its type (the examples read it as [version!]). *)
Record Transaction := { version : option Z }.

(** The events, discriminated by [event.type]. The payloads of the three
    informational variants are only ever printed. *)
Inductive StreamEvent :=
| EData (chainId : Z) (transactions : list Transaction)
| EError (error : string)
| EMetadata (metadata : string)
| EStatus (status : string).

Definition event_type (event : StreamEvent) : string :=
  match event with
  | EData _ _ => "data"
  | EError _ => "error"
  | EMetadata _ => "metadata"
  | EStatus _ => "status"
  end.

(** The argument of [streamTransactions]. *)
Record StreamArgs := { url : string; apiKey : string; startingVersion : Z }.

(** The async iterator that [streamTransactions(args)] returns, as the
    items its successive [next()] calls settle with: an event, the end of
    the sequence, or a rejection. [Pending] is a [next()] that has not
    settled: the stream is open and the consumer waits. A stream without
    end is observed through its prefixes, each ending in [Pending]. *)
Inductive EventIterator :=
| Done
| Rejects (reason : Thrown)
| Pending
| Next (event : StreamEvent) (rest : EventIterator).

(** [array[i]] for an integer index: [undefined] out of range. *)
Definition index {A} (array : list A) (i : Z) : option A :=
  if i <? 0 then None else array !! Z.to_nat i.

(** ** The loop that consumes a sequence *)

(** How one turn of a loop body ends. *)
Inductive Completion (S : Type) :=
| Normal (s : S)
| Break (s : S)
| Throw (e : Thrown).
Arguments Normal {S} s.
Arguments Break {S} s.
Arguments Throw {S} e.

(** How a [for await] loop is left: the sequence ended, the body broke out,
    the body threw, or the sequence itself threw; or the loop is still
    waiting for the next event. *)
Inductive Outcome (S : Type) :=
| Finished (s : S)
| Broke (s : S)
| BodyThrew (e : Thrown)
| SequenceThrew (e : Thrown)
| Waiting (s : S).
Arguments Finished {S} s.
Arguments Waiting {S} s.
Arguments Broke {S} s.
Arguments BodyThrew {S} e.
Arguments SequenceThrew {S} e.

(** What [streamAndPersistTransactions] does that can be observed, in
    program order. [CloseStream] is the [return()] that a [for await] left
    early sends to the iterator it was reading. *)
Inductive Action :=
| CreateTable
| ReadCheckpoint (row : option Row)
| OpenStream (args : StreamArgs)
| Yield (event : StreamEvent)
| WriteCheckpoint (value : Z)
| CloseStream.

Record Run (S : Type) := {
  trace : list Action;
  final_db : Database;
  outcome : Outcome S
}.
Arguments trace {S} r.
Arguments final_db {S} r.
Arguments outcome {S} r.

(** The run that does [actions] first. *)
Definition after {S} (actions : list Action) (r : Run S) : Run S :=
  {| trace := actions ++ trace r; final_db := final_db r; outcome := outcome r |}.

(** ** [streamAndPersistTransactions] (01_sqlite.ts lines 29-58) *)

(** Lines 50-51:
    [event.transactions[event.transactions.length - 1].version! + 1n].
    Reading [.version] of [undefined] and adding [1n] to [undefined] both
    throw a [TypeError]. *)
Definition nextStartingVersion (transactions : list Transaction) : Thrown + Z :=
  match index transactions (Z.of_nat (length transactions) - 1) with
  | None => inl TypeError
  | Some tx =>
      match version tx with
      | None => inl TypeError
      | Some ver => inr (ver + 1)
      end
  end.

(** Lines 49-56: what the generator does when it is resumed after
    [yield event]. *)
Definition persist (event : StreamEvent) (db : Database)
  : Thrown + (list Action * Database) :=
  match event with
  | EData _ transactions =>
      match nextStartingVersion transactions with
      | inl e => inl e
      | inr next =>
          match query_run next db with
          | inl e => inl e
          | inr db' => inr ([WriteCheckpoint next], db')
          end
      end
  | _ => inr ([], db)
  end.

Section Programs.

(** The imported [streamTransactions]. *)
Variable streamTransactions : StreamArgs -> EventIterator.

Section Loop.

Context {S : Type}.

(** The body of the loop that consumes the generator, on the state [S] of
    the consumer. *)
Variable body : S -> StreamEvent -> Completion S.

(** Lines 43-57, driven by the consumer's loop. At [yield event] control
    is with the consumer's body. If the body completes normally the loop
    asks for the next event, which resumes the generator after the [yield]
    (lines 49-56), then reads the stream again. If the body breaks or
    throws, the loop sends [return()] to the generator instead: the
    generator finishes at the [yield], closing the stream, and runs nothing
    of lines 49-56. *)
Fixpoint generator_loop (stream : EventIterator) (db : Database) (s : S) : Run S :=
  match stream with
  | Done => {| trace := []; final_db := db; outcome := Finished s |}
  | Rejects e => {| trace := []; final_db := db; outcome := SequenceThrew e |}
  | Pending => {| trace := []; final_db := db; outcome := Waiting s |}
  | Next event rest =>
      match body s event with
      | Break s' =>
          {| trace := [Yield event; CloseStream]; final_db := db; outcome := Broke s' |}
      | Throw e =>
          {| trace := [Yield event; CloseStream]; final_db := db; outcome := BodyThrew e |}
      | Normal s' =>
          match persist event db with
          | inl e =>
              {| trace := [Yield event; CloseStream]; final_db := db;
                 outcome := SequenceThrew e |}
          | inr (writes, db') =>
              after (Yield event :: writes) (generator_loop rest db' s')
          end
      end
  end.

(** The whole generator, from the first [next()] of the consumer's loop. *)
Definition streamAndPersistTransactions
    (db : Database) (url apiKey : string) (s : S) : Run S :=
  let db := exec_create_table db in
  match query_get db with
  | inl e => {| trace := [CreateTable]; final_db := db; outcome := SequenceThrew e |}
  | inr row =>
      let startingVersion := v (default {| v := VBigInt 0 |} row) in
      match BigInt startingVersion with
      | inl e =>
          {| trace := [CreateTable; ReadCheckpoint row]; final_db := db;
             outcome := SequenceThrew e |}
      | inr startingVersion =>
          let args :=
            {| url := url; apiKey := apiKey; startingVersion := startingVersion |} in
          after [CreateTable; ReadCheckpoint row; OpenStream args]
                (generator_loop (streamTransactions args) db s)
      end
  end.

(** A [for await] loop that reads [streamTransactions] directly
    (00_basic.ts lines 24-59): the events the body was given, and how the
    loop was left. *)
Fixpoint for_await (stream : EventIterator) (s : S) : list StreamEvent * Outcome S :=
  match stream with
  | Done => ([], Finished s)
  | Rejects e => ([], SequenceThrew e)
  | Pending => ([], Waiting s)
  | Next event rest =>
      match body s event with
      | Break s' => ([event], Broke s')
      | Throw e => ([event], BodyThrew e)
      | Normal s' =>
          let '(seen, out) := for_await rest s' in (event :: seen, out)
      end
  end.

End Loop.

(** ** The top-level loops (01_sqlite.ts lines 69-104, 00_basic.ts lines 24-59) *)

(** A line written to the console. *)
Inductive ConsoleLine :=
| console_debug (message : string)
| console_error (error : string)
| console_log (text : string).

(** A bigint in a template literal. *)
Definition showBigInt (z : Z) : string :=
  NilZero.string_of_int (Z.to_int z).

(** [${tx.version!}]: the assertion [!] checks nothing at run time. *)
Definition showVersion (ver : option Z) : string :=
  match ver with
  | Some z => showBigInt z
  | None => "undefined"
  end.

(** The [switch (event.type)] of both examples; the state is the console
    output so far. *)
Definition main_body (console : list ConsoleLine) (event : StreamEvent)
  : Completion (list ConsoleLine) :=
  match event with
  | EData chainId transactions =>
      if negb (chainId =? 2) then
        Throw (Error ("Transaction stream returned a chainId of "
                      +:+ showBigInt chainId
                      +:+ ", but expected testnet chainId=2"))
      else
        match index transactions 0 with
        | None => Throw TypeError
        | Some first =>
            let startVersion := version first in
            match index transactions (Z.of_nat (length transactions) - 1) with
            | None => Throw TypeError
            | Some last =>
                let endVersion := version last in
                Normal (console ++ [console_debug
                  ("Got " +:+ showBigInt (Z.of_nat (length transactions))
                   +:+ " transaction(s) from version " +:+ showVersion startVersion
                   +:+ " to " +:+ showVersion endVersion +:+ ".")])
            end
        end
  | EError error => Normal (console ++ [console_error error])
  | EMetadata metadata => Normal (console ++ [console_log metadata])
  | EStatus status => Normal (console ++ [console_log status])
  end.

(** 01_sqlite.ts lines 60-104, on the database that [indexer.db] holds and
    the key in [APTOS_API_KEY_TESTNET]. *)
Definition main_01_sqlite (db : Database) (APTOS_API_KEY_TESTNET : string)
  : Run (list ConsoleLine) :=
  streamAndPersistTransactions main_body db
    "grpc.testnet.aptoslabs.com:443" APTOS_API_KEY_TESTNET [].

(** 00_basic.ts lines 24-59. *)
Definition main_00_basic (APTOS_API_KEY_TESTNET : string)
  : list StreamEvent * Outcome (list ConsoleLine) :=
  for_await main_body
    (streamTransactions {| url := "grpc.testnet.aptoslabs.com:443";
                           apiKey := APTOS_API_KEY_TESTNET;
                           startingVersion := 0 |}) [].

End Programs.

(** ** Observations on a run *)

(** The effect of one action on the database, and the database after a
    prefix of a trace: the state a crash at that point leaves behind. The
    database after the whole trace is the one the run ends with
    ([consumer_final_db] below). *)
Definition effect (db : Database) (a : Action) : Database :=
  match a with
  | CreateTable => exec_create_table db
  | WriteCheckpoint value =>
      match query_run value db with
      | inr db' => db'
      | inl _ => db
      end
  | _ => db
  end.

Definition db_after (db : Database) (actions : list Action) : Database :=
  foldl effect db actions.

(** The events handed to the consumer, the sessions opened and the values
    upserted, each in order. *)
Definition yields (actions : list Action) : list StreamEvent :=
  omap (fun a => match a with Yield event => Some event | _ => None end) actions.

Definition opened (actions : list Action) : list StreamArgs :=
  omap (fun a => match a with OpenStream args => Some args | _ => None end) actions.

Definition writes (actions : list Action) : list Z :=
  omap (fun a => match a with WriteCheckpoint value => Some value | _ => None end) actions.

(** All the events an iterator holds. *)
Fixpoint events (stream : EventIterator) : list StreamEvent :=
  match stream with
  | Next event rest => event :: events rest
  | _ => []
  end.

(** The transactions that a sequence of events delivers, in order. *)
Definition delivered (evs : list StreamEvent) : list Transaction :=
  flat_map (fun event =>
              match event with
              | EData _ transactions => transactions
              | _ => []
              end) evs.

(** [startingVersion] is inclusive: the first transaction that the stream
    returns is not before it. This is the contract of the imported
    [streamTransactions] that resuming relies on. *)
Definition inclusive (streamTransactions : StreamArgs -> EventIterator) : Prop :=
  forall args tx ver,
    head (delivered (events (streamTransactions args))) = Some tx ->
    version tx = Some ver ->
    startingVersion args <= ver.

(** ** The session's framing of batches *)

(** A message of the server: the chain it speaks for and a batch. *)
Record WireBatch := { wire_chainId : Z; wire_transactions : list Transaction }.

(** Modelled from the spec: the framing of server messages into events by
    the stream session, the implementation of [streamTransactions], which is
    imported from [".."] and is not among the sources. Each batch received
    from the wire is wrapped in one Data event, batch boundaries preserved;
    a batch with zero transactions is a protocol violation: it is not
    delivered as a Data event, an Error event describes it and the sequence
    ends. The other violations that the session is to detect are not part
    of this model. *)
Fixpoint frame (wire : list WireBatch) : EventIterator :=
  match wire with
  | [] => Done
  | batch :: rest =>
      match wire_transactions batch with
      | [] => Next (EError "protocol violation: empty batch") Done
      | _ :: _ =>
          Next (EData (wire_chainId batch) (wire_transactions batch)) (frame rest)
      end
  end.

(** ** Scenarios *)

Definition tx (ver : Z) : Transaction := {| version := Some ver |}.

(** Five transactions with contiguous versions. *)
Definition batch_from (first : Z) : list Transaction :=
  map tx [first; first + 1; first + 2; first + 3; first + 4].

Definition fresh_store : Database := {| kv := None |}.

Definition store_holding (value : SqlValue) : Database :=
  {| kv := Some {[ "startingVersion" := value ]} |}.

(** A testnet node: it acknowledges the session, sends the five
    transactions from [startingVersion] on, and keeps the stream open. *)
Definition testnet_node (args : StreamArgs) : EventIterator :=
  Next (EStatus "connected")
       (Next (EData 2 (batch_from (startingVersion args))) Pending).

(** A node of another chain, sending two batches. *)
Definition mainnet_node (args : StreamArgs) : EventIterator :=
  Next (EData 1 (batch_from (startingVersion args)))
       (Next (EData 1 (batch_from (startingVersion args + 5))) Done).

(** A consumer that counts the events it saw and breaks at the first batch. *)
Definition break_at_data (seen : nat) (event : StreamEvent) : Completion nat :=
  match event with
  | EData _ _ => Break seen
  | _ => Normal (Datatypes.S seen)
  end.

(** ** Further observations and scenarios *)

(** The batches that a sequence of events carries, one per Data event. *)
Definition batches (evs : list StreamEvent) : list (list Transaction) :=
  omap (fun event =>
          match event with
          | EData _ transactions => Some transactions
          | _ => None
          end) evs.

(** The value of the row with key [k], if the table exists and has one. *)
Definition row_of (k : string) (db : Database) : option SqlValue :=
  match kv db with
  | None => None
  | Some t => t !! k
  end.

(** The state of a consumer whose body has handled [evs] normally, one
    after the other from state [s]; [None] when the body breaks or throws
    at one of them. *)
Fixpoint advance {S : Type} (body : S -> StreamEvent -> Completion S)
    (s : S) (evs : list StreamEvent) : option S :=
  match evs with
  | [] => Some s
  | event :: evs' =>
      match body s event with
      | Normal s' => advance body s' evs'
      | _ => None
      end
  end.

(** How a loop that has come to the end of the stream in state [s] is
    left: by the end of the sequence, by its rejection, or not yet. *)
Fixpoint end_of {S : Type} (stream : EventIterator) (s : S) : Outcome S :=
  match stream with
  | Done => Finished s
  | Rejects e => SequenceThrew e
  | Pending => Waiting s
  | Next _ rest => end_of rest s
  end.

(** The line that the examples write for an event that their loop body
    accepts: the payload of an error, metadata or status event, and the
    size and the first and last versions of a batch of chain 2 that is not
    empty. *)
Definition console_line (event : StreamEvent) : option ConsoleLine :=
  match event with
  | EError error => Some (console_error error)
  | EMetadata metadata => Some (console_log metadata)
  | EStatus status => Some (console_log status)
  | EData chainId transactions =>
      if chainId =? 2 then
        match head transactions, last transactions with
        | Some first, Some final =>
            Some (console_debug
                    ("Got " +:+ showBigInt (Z.of_nat (length transactions))
                     +:+ " transaction(s) from version " +:+ showVersion (version first)
                     +:+ " to " +:+ showVersion (version final) +:+ "."))
        | _, _ => None
        end
      else None
  end.

(** A node whose batch ends at the largest version that SQLite's INTEGER
    holds. *)
Definition last_int64_node (args : StreamArgs) : EventIterator :=
  Next (EData 2 [tx (2 ^ 63 - 2); tx (2 ^ 63 - 1)]) (Next (EStatus "late") Done).

(** A node whose second batch ends with a transaction without version. *)
Definition versionless_node (args : StreamArgs) : EventIterator :=
  Next (EData 2 (batch_from (startingVersion args)))
       (Next (EData 2 [tx (startingVersion args + 5); {| version := None |}])
             (Next (EStatus "late") Done)).

(** A testnet node that sends two batches around a metadata event and
    ends the stream. *)
Definition two_batch_node (args : StreamArgs) : EventIterator :=
  Next (EData 2 (batch_from (startingVersion args)))
       (Next (EMetadata "m")
             (Next (EData 2 (batch_from (startingVersion args + 5))) Done)).

(** A database in which the table has a row of another application. *)
Definition shared_store : Database :=
  {| kv := Some (<["theme" := VString "dark"]> {[ "startingVersion" := VBigInt 100 ]}) |}.

(** * Properties *)

(** ** Array access *)

Lemma index_last {A} (array : list A) :
  index array (Z.of_nat (length array) - 1) = last array.
Proof.
  unfold index. destruct array as [|a l]; [reflexivity|].
  destruct (Z.ltb_spec (Z.of_nat (length (a :: l)) - 1) 0) as [Hneg|_].
  - cbn [length] in Hneg. lia.
  - rewrite last_lookup. f_equal. cbn [length]. lia.
Qed.

Lemma index_first {A} (array : list A) : index array 0 = head array.
Proof. unfold index. cbn. now destruct array. Qed.

Lemma nextStartingVersion_last transactions next :
  nextStartingVersion transactions = inr next <->
  exists tx ver, last transactions = Some tx /\ version tx = Some ver /\ next = ver + 1.
Proof.
  unfold nextStartingVersion. rewrite index_last. split.
  - destruct (last transactions) as [tx|]; [|discriminate].
    destruct (version tx) as [ver|] eqn:Hver; [|discriminate].
    intros [= <-]. eauto.
  - intros (tx & ver & -> & -> & ->). reflexivity.
Qed.

(** ** The store *)

Lemma exec_create_table_exists db : is_Some (kv (exec_create_table db)).
Proof. unfold exec_create_table. destruct (kv db) eqn:E; rewrite ?E; eauto. Qed.

Lemma exec_create_table_checkpoint db :
  checkpoint (exec_create_table db) = checkpoint db.
Proof.
  unfold exec_create_table, checkpoint. destruct (kv db) eqn:E; cbn; rewrite ?E; done.
Qed.

Lemma query_get_created db :
  query_get (exec_create_table db) = inr (Build_Row <$> checkpoint db).
Proof.
  unfold query_get, exec_create_table, checkpoint.
  destruct (kv db) eqn:E; cbn; rewrite ?E; done.
Qed.

Lemma query_run_exists value db :
  is_Some (kv db) -> fits_int64 value = true ->
  exists db', query_run value db = inr db'.
Proof. intros [t Ht] Hfit. unfold query_run. rewrite Ht, Hfit. eauto. Qed.

Lemma query_run_checkpoint value db db' :
  query_run value db = inr db' ->
  checkpoint db' = Some (VBigInt value) /\ is_Some (kv db').
Proof.
  unfold query_run. destruct (kv db) as [t|]; [|discriminate].
  destruct (fits_int64 value); [|discriminate].
  intros [= <-]. unfold checkpoint. cbn. rewrite lookup_insert_eq. eauto.
Qed.

Lemma query_run_fits value db db' :
  query_run value db = inr db' -> fits_int64 value = true.
Proof.
  unfold query_run. destruct (kv db) as [t|]; [|discriminate].
  now destruct (fits_int64 value).
Qed.

(** ** The generator resumed after a [yield] *)

Lemma persist_inr event db w db' :
  persist event db = inr (w, db') ->
  (w = [] /\ db' = db /\ event_type event <> "data") \/
  (exists c txs next,
      event = EData c txs /\ nextStartingVersion txs = inr next /\
      w = [WriteCheckpoint next] /\ query_run next db = inr db').
Proof.
  destruct event as [c txs| | |]; cbn [persist];
    try (intros [= <- <-]; left; repeat split; discriminate).
  destruct (nextStartingVersion txs) as [e|next] eqn:Hn; [discriminate|].
  destruct (query_run next db) as [e|db1] eqn:Hq; [discriminate|].
  intros [= <- <-]. right. eauto 8.
Qed.

Lemma persist_db_after event db w db' :
  persist event db = inr (w, db') -> db_after db w = db'.
Proof.
  intros H. apply persist_inr in H as [(-> & -> & _)|(c & txs & n & _ & _ & -> & Hq)].
  - reflexivity.
  - unfold db_after. cbn. now rewrite Hq.
Qed.

Lemma db_after_cons db a actions :
  db_after db (a :: actions) = db_after (effect db a) actions.
Proof. reflexivity. Qed.

Lemma db_after_app db a b : db_after db (a ++ b) = db_after (db_after db a) b.
Proof. apply foldl_app. Qed.

(** On a database in which the table exists, actions that write nothing
    leave the database as it is. *)
Lemma db_after_without_writes actions : forall db,
  is_Some (kv db) -> writes actions = [] -> db_after db actions = db.
Proof.
  induction actions as [|a actions IH]; intros db Hkv Hw; [reflexivity|].
  rewrite db_after_cons.
  destruct a; try discriminate Hw; cbn [effect]; try now apply IH.
  destruct Hkv as [t Ht]. unfold exec_create_table. rewrite Ht.
  apply IH; [now exists t|exact Hw].
Qed.

Lemma db_after_exists actions : forall db,
  is_Some (kv db) -> is_Some (kv (db_after db actions)).
Proof.
  induction actions as [|a actions IH]; intros db Hdb; [exact Hdb|].
  apply IH. destruct a; cbn [effect]; try exact Hdb.
  - apply exec_create_table_exists.
  - destruct (query_run value db) as [e|db'] eqn:Hq; [exact Hdb|].
    now apply query_run_checkpoint in Hq.
Qed.

(** ** The loop of the generator *)

Section LoopFacts.

Context {S : Type}.
Variable body : S -> StreamEvent -> Completion S.

(** The trace of the loop on a stream that has an event starts with the
    [yield] of that event. *)
Lemma loop_trace_head event rest db s :
  exists tl, trace (generator_loop body (Next event rest) db s) = Yield event :: tl.
Proof.
  cbn [generator_loop].
  destruct (body s event); [|eauto..].
  destruct (persist event db) as [e|[w db']]; cbn [trace]; eauto.
Qed.

(** The database that the loop ends with is the one its trace builds. *)
Lemma loop_final_db stream : forall db s,
  final_db (generator_loop body stream db s)
  = db_after db (trace (generator_loop body stream db s)).
Proof.
  induction stream as [| | |event rest IH]; intros db s; cbn [generator_loop];
    try reflexivity.
  destruct (body s event) as [s'|s'|e]; try reflexivity.
  destruct (persist event db) as [e|[w db']] eqn:Hp; [reflexivity|].
  cbn [after trace final_db]. rewrite IH.
  rewrite <- app_comm_cons, db_after_cons, db_after_app. cbn [effect].
  now rewrite (persist_db_after _ _ _ _ Hp).
Qed.

(** Every [yield] in a trace starts a run of the loop of its own: on the
    rest of the stream, from the database built so far. *)
Lemma loop_at_yield stream : forall db s pre event post,
  trace (generator_loop body stream db s) = pre ++ Yield event :: post ->
  exists rest s0,
    trace (generator_loop body (Next event rest) (db_after db pre) s0)
    = Yield event :: post /\
    final_db (generator_loop body (Next event rest) (db_after db pre) s0)
    = final_db (generator_loop body stream db s) /\
    outcome (generator_loop body (Next event rest) (db_after db pre) s0)
    = outcome (generator_loop body stream db s) /\
    events stream = yields pre ++ event :: events rest.
Proof.
  induction stream as [| | |ev rest IH]; intros db s pre event post;
    try (cbn [generator_loop trace]; intros H; destruct pre; discriminate).
  intros H. destruct pre as [|a pre].
  - assert (ev = event) as ->.
    { destruct (loop_trace_head ev rest db s) as [tl E].
      rewrite E in H. now injection H. }
    exists rest, s. change (db_after db []) with db.
    repeat split; try reflexivity. exact H.
  - revert H. cbn [generator_loop].
    destruct (body s ev) as [s'|s'|e];
      try (cbn [trace]; intros [= <- H]; destruct pre as [|? [|? ?]]; discriminate).
    destruct (persist ev db) as [e|[w db']] eqn:Hp;
      [cbn [trace]; intros [= <- H]; destruct pre as [|? [|? ?]]; discriminate|].
    cbn [after trace final_db outcome]. intros [= <- H].
    apply persist_inr in Hp as [(-> & -> & _)|(c & txs & n & -> & _ & -> & Hq)].
    + destruct (IH _ _ _ _ _ H) as (rest' & s0 & Ht & Hf & Ho & He).
      exists rest', s0. cbn [events]. rewrite He. auto.
    + destruct pre as [|a pre]; [discriminate|]. injection H as <- H.
      destruct (IH _ _ _ _ _ H) as (rest' & s0 & Ht & Hf & Ho & He).
      exists rest', s0. cbn [events]. rewrite He.
      unfold db_after in *. cbn [foldl effect]. rewrite Hq. auto.
Qed.

(** A write is never the first action of the loop, and what precedes it
    is a [yield]. *)
Lemma loop_write_follows_yield stream : forall db s pre value post,
  trace (generator_loop body stream db s) = pre ++ WriteCheckpoint value :: post ->
  exists pre' event, pre = pre' ++ [Yield event].
Proof.
  induction stream as [| | |ev rest IH]; intros db s pre value post;
    try (cbn [generator_loop trace]; intros H; destruct pre; discriminate).
  cbn [generator_loop].
  destruct (body s ev) as [s'|s'|e];
    try (cbn [trace]; intros H; destruct pre as [|? [|? [|? ?]]]; discriminate).
  destruct (persist ev db) as [e|[w db']] eqn:Hp;
    [cbn [trace]; intros H; destruct pre as [|? [|? [|? ?]]]; discriminate|].
  cbn [after trace]. intros H.
  destruct pre as [|a pre]; [discriminate|]. injection H as <- H.
  apply persist_inr in Hp as [(-> & -> & _)|(c & txs & n & -> & _ & -> & Hq)].
  - destruct (IH _ _ _ _ _ H) as (pre' & event & ->).
    now exists (Yield ev :: pre'), event.
  - destruct pre as [|a pre].
    + now exists [], (EData c txs).
    + injection H as <- H. destruct (IH _ _ _ _ _ H) as (pre' & event & ->).
      now exists (Yield (EData c txs) :: WriteCheckpoint n :: pre'), event.
Qed.

(** The loop opens no session. *)
Lemma loop_opened stream : forall db s,
  opened (trace (generator_loop body stream db s)) = [].
Proof.
  induction stream as [| | |ev rest IH]; intros db s; cbn [generator_loop];
    try reflexivity.
  destruct (body s ev) as [s'|s'|e]; try reflexivity.
  destruct (persist ev db) as [e|[w db']] eqn:Hp; [reflexivity|].
  cbn [after trace].
  apply persist_inr in Hp as [(-> & -> & _)|(c & txs & n & -> & _ & -> & Hq)];
    cbn; apply IH.
Qed.

(** The events handed over are those of the stream, from its first one
    on; all of them when the loop is left because the stream ended. *)
Lemma loop_yields stream : forall db s,
  yields (trace (generator_loop body stream db s)) `prefix_of` events stream /\
  forall s', outcome (generator_loop body stream db s) = Finished s' ->
             yields (trace (generator_loop body stream db s)) = events stream.
Proof.
  induction stream as [| | |ev rest IH]; intros db s; cbn [generator_loop];
    try (split; [apply prefix_nil|]; cbn; intros; done).
  destruct (body s ev) as [s1|s1|e];
    try (split; [now apply prefix_cons, prefix_nil|]; cbn; intros; done).
  destruct (persist ev db) as [e|[w db']] eqn:Hp;
    [split; [now apply prefix_cons, prefix_nil|]; cbn; intros; done|].
  cbn [after trace outcome events].
  assert (yields ((Yield ev :: w) ++ trace (generator_loop body rest db' s1))
          = ev :: yields (trace (generator_loop body rest db' s1))) as ->.
  { apply persist_inr in Hp as [(-> & -> & _)|(c & txs & n & -> & _ & -> & Hq)];
      reflexivity. }
  destruct (IH db' s1) as [Hpre Hfin]. split.
  - now apply prefix_cons.
  - intros s' Ho. f_equal. eauto.
Qed.

(** A loop that the body left runs nothing after the [yield] at which the
    body was. *)
Lemma loop_left_by_body stream : forall db s,
  (forall s', outcome (generator_loop body stream db s) <> Broke s') /\
  (forall e, outcome (generator_loop body stream db s) <> BodyThrew e) \/
  exists pre event s0,
    trace (generator_loop body stream db s) = pre ++ [Yield event; CloseStream] /\
    final_db (generator_loop body stream db s) = db_after db pre /\
    match outcome (generator_loop body stream db s) with
    | Broke s' => body s0 event = Break s'
    | BodyThrew e => body s0 event = Throw e
    | _ => False
    end.
Proof.
  induction stream as [| | |ev rest IH]; intros db s; cbn [generator_loop];
    try (left; split; intros; discriminate).
  destruct (body s ev) as [s1|s1|e] eqn:Hb.
  - destruct (persist ev db) as [e|[w db']] eqn:Hp;
      [left; split; intros; discriminate|].
    cbn [after trace outcome final_db].
    destruct (IH db' s1) as [Hno|(pre & event & s0 & Ht & Hf & Ho)]; [now left|].
    right. exists (Yield ev :: w ++ pre), event, s0. rewrite Ht, Hf.
    split; [cbn [app]; now rewrite app_assoc|]. split; [|exact Ho].
    rewrite db_after_cons, db_after_app. cbn [effect].
    now rewrite (persist_db_after _ _ _ _ Hp).
  - right. now exists [], ev, s.
  - right. now exists [], ev, s.
Qed.

End LoopFacts.

(** ** The generator as a whole *)

Section ConsumerFacts.

Variable streamTransactions : StreamArgs -> EventIterator.
Context {S : Type}.
Variable body : S -> StreamEvent -> Completion S.

(** The generator fails before it opens a session, when [BigInt] rejects
    the stored value, or it opens one session and runs the loop on it. *)
Lemma consumer_cases db url apiKey s :
  let r := streamAndPersistTransactions streamTransactions body db url apiKey s in
  let row := Build_Row <$> checkpoint db in
  (exists e,
      BigInt (default (VBigInt 0) (checkpoint db)) = inl e /\
      r = {| trace := [CreateTable; ReadCheckpoint row];
             final_db := exec_create_table db;
             outcome := SequenceThrew e |}) \/
  (exists startingVersion,
      BigInt (default (VBigInt 0) (checkpoint db)) = inr startingVersion /\
      let args := {| url := url; apiKey := apiKey;
                     startingVersion := startingVersion |} in
      r = after [CreateTable; ReadCheckpoint row; OpenStream args]
                (generator_loop body (streamTransactions args)
                                (exec_create_table db) s)).
Proof.
  cbv zeta. unfold streamAndPersistTransactions. rewrite query_get_created.
  assert (v (default {| v := VBigInt 0 |} (Build_Row <$> checkpoint db))
          = default (VBigInt 0) (checkpoint db)) as ->
      by now destruct (checkpoint db).
  destruct (BigInt (default (VBigInt 0) (checkpoint db))) as [e|z]; eauto.
Qed.

Lemma consumer_final_db db url apiKey s :
  final_db (streamAndPersistTransactions streamTransactions body db url apiKey s)
  = db_after db (trace (streamAndPersistTransactions streamTransactions body db url apiKey s)).
Proof.
  destruct (consumer_cases db url apiKey s) as [(e & _ & ->)|(z & _ & ->)];
    [reflexivity|].
  cbn [after final_db trace]. now rewrite loop_final_db.
Qed.

(** Every [yield] of the generator is the start of a run of the loop, on a
    database in which the table exists. *)
Lemma consumer_at_yield db url apiKey s pre event post :
  trace (streamAndPersistTransactions streamTransactions body db url apiKey s)
  = pre ++ Yield event :: post ->
  exists rest s0,
    is_Some (kv (db_after db pre)) /\
    trace (generator_loop body (Next event rest) (db_after db pre) s0)
    = Yield event :: post /\
    final_db (generator_loop body (Next event rest) (db_after db pre) s0)
    = final_db (streamAndPersistTransactions streamTransactions body db url apiKey s) /\
    outcome (generator_loop body (Next event rest) (db_after db pre) s0)
    = outcome (streamAndPersistTransactions streamTransactions body db url apiKey s).
Proof.
  destruct (consumer_cases db url apiKey s) as [(e & _ & ->)|(z & _ & ->)];
    cbn [after trace final_db outcome]; intros H.
  - destruct pre as [|? [|? [|? ?]]]; discriminate.
  - destruct pre as [|? [|? [|? pre]]]; try discriminate.
    injection H as <- <- <- H.
    destruct (loop_at_yield body _ _ _ _ _ _ H) as (rest & s0 & Ht & Hf & Ho & _).
    exists rest, s0. rewrite !db_after_cons. cbn [effect]. split; [|auto].
    apply db_after_exists, exec_create_table_exists.
Qed.

(** Every write of the generator directly follows the [yield] of a Data
    event, whose next version it is; the upsert succeeds on the store of
    that moment. *)
Lemma consumer_write_follows_yield db url apiKey s pre value post :
  trace (streamAndPersistTransactions streamTransactions body db url apiKey s)
  = pre ++ WriteCheckpoint value :: post ->
  exists pre' chainId transactions,
    pre = pre' ++ [Yield (EData chainId transactions)] /\
    nextStartingVersion transactions = inr value /\
    exists db', query_run value (db_after db pre) = inr db'.
Proof.
  intros H.
  assert (exists pre' event, pre = pre' ++ [Yield event]) as (pre' & event & ->).
  { revert H.
    destruct (consumer_cases db url apiKey s) as [(e & _ & ->)|(z & _ & ->)];
      cbn [after trace]; intros H.
    - destruct pre as [|? [|? [|? ?]]]; discriminate.
    - destruct pre as [|? [|? [|? pre]]]; try discriminate.
      injection H as <- <- <- H.
      destruct (loop_write_follows_yield body _ _ _ _ _ _ H) as (p & ev & ->).
      now exists (CreateTable :: ReadCheckpoint (Build_Row <$> checkpoint db)
                    :: OpenStream {| url := url; apiKey := apiKey;
                                     startingVersion := z |} :: p), ev. }
  rewrite <- app_assoc in H. cbn [app] in H.
  destruct (consumer_at_yield _ _ _ _ _ _ _ H) as (rest & s0 & Hkv & Ht & _).
  assert (db_after db (pre' ++ [Yield event]) = db_after db pre') as Hdb
      by now rewrite db_after_app.
  rewrite Hdb. revert Ht. cbn [generator_loop].
  destruct (body s0 event) as [s'|s'|e]; try discriminate.
  destruct (persist event (db_after db pre')) as [e|[w db']] eqn:Hp;
    [discriminate|].
  cbn [after trace].
  apply persist_inr in Hp as [(-> & -> & _)|(c & txs & n & -> & Hn & -> & Hq)].
  - cbn [app]. intros [= Ht].
    destruct (loop_trace_head body event rest (db_after db pre') s0) as [tl Hl].
    destruct rest as [| | |ev' rest']; try discriminate.
    destruct (loop_trace_head body ev' rest' (db_after db pre') s') as [tl' Hl'].
    rewrite Hl' in Ht. discriminate.
  - intros [= -> _]. exists pre', c, txs. eauto.
Qed.

End ConsumerFacts.

(** ** The checkpoint written for a batch *)

(** C1. In every run of the resumable consumer, when a Data event has been
    yielded and the generator goes on (what follows is not the closing of
    the stream), what follows is the upsert of the version of the last
    transaction of that batch plus 1, and the store then holds that value
    under ['startingVersion']: the store that the run ends with is the one
    that the actions of the run build, and it holds that value when no
    later batch was written. *)
Theorem checkpoint_is_last_version_plus_one
    (streamTransactions : StreamArgs -> EventIterator)
    {S : Type} (body : S -> StreamEvent -> Completion S)
    (db : Database) (url apiKey : string) (s : S)
    (pre : list Action) (chainId : Z) (transactions : list Transaction)
    (a : Action) (post : list Action) :
  trace (streamAndPersistTransactions streamTransactions body db url apiKey s)
  = pre ++ Yield (EData chainId transactions) :: a :: post ->
  a <> CloseStream ->
  exists last_tx ver,
    last transactions = Some last_tx /\
    version last_tx = Some ver /\
    a = WriteCheckpoint (ver + 1) /\
    checkpoint (db_after db (pre ++ [Yield (EData chainId transactions); a]))
    = Some (VBigInt (ver + 1)) /\
    final_db (streamAndPersistTransactions streamTransactions body db url apiKey s)
    = db_after db (trace (streamAndPersistTransactions
                            streamTransactions body db url apiKey s)) /\
    (writes post = [] ->
     checkpoint (final_db (streamAndPersistTransactions
                             streamTransactions body db url apiKey s))
     = Some (VBigInt (ver + 1))).
Proof.
  intros H Ha.
  destruct (consumer_at_yield _ _ _ _ _ _ _ _ _ H) as (rest & s0 & Hkv & Ht & _).
  revert Ht. cbn [generator_loop].
  destruct (body s0 (EData chainId transactions)) as [s'|s'|e];
    try (intros [= <- _]; now destruct Ha).
  destruct (persist _ (db_after db pre)) as [e|[w db']] eqn:Hp;
    [intros [= <- _]; now destruct Ha|].
  apply persist_inr in Hp as [(_ & _ & Hty)|(c & txs & n & [= <- <-] & Hn & -> & Hq)];
    [now destruct Hty|].
  cbn [after trace app]. intros [= <- _].
  apply nextStartingVersion_last in Hn as (last_tx & ver & Hl & Hv & ->).
  exists last_tx, ver.
  assert (Hdb : db_after db (pre ++ [Yield (EData chainId transactions);
                                     WriteCheckpoint (ver + 1)]) = db').
  { rewrite db_after_app, !db_after_cons. cbn [effect db_after foldl].
    now rewrite Hq. }
  destruct (query_run_checkpoint _ _ _ Hq) as [Hc Hkv'].
  repeat split; try assumption.
  - now rewrite Hdb.
  - apply consumer_final_db.
  - intros Hw. rewrite consumer_final_db, H.
    change (pre ++ Yield (EData chainId transactions) :: WriteCheckpoint (ver + 1) :: post)
      with (pre ++ [Yield (EData chainId transactions); WriteCheckpoint (ver + 1)] ++ post).
    rewrite app_assoc, db_after_app, Hdb.
    now rewrite db_after_without_writes.
Qed.

(** A batch of versions 100 to 104 is delivered: the checkpoint is 105. *)
Lemma checkpoint_is_last_version_plus_one_witness :
  trace (main_01_sqlite testnet_node (store_holding (VBigInt 100)) "key")
  = [CreateTable; ReadCheckpoint (Some {| v := VBigInt 100 |});
     OpenStream {| url := "grpc.testnet.aptoslabs.com:443";
                   apiKey := "key"; startingVersion := 100 |};
     Yield (EStatus "connected")]
    ++ Yield (EData 2 (batch_from 100)) :: WriteCheckpoint 105 :: [] /\
  WriteCheckpoint 105 <> CloseStream /\
  last (batch_from 100) = Some (tx 104) /\
  checkpoint (final_db (main_01_sqlite testnet_node (store_holding (VBigInt 100)) "key"))
  = Some (VBigInt (104 + 1)).
Proof.
  split; [vm_compute; reflexivity|]. split; [discriminate|].
  split; [reflexivity|].
  destruct (checkpoint_is_last_version_plus_one
              testnet_node main_body (store_holding (VBigInt 100))
              "grpc.testnet.aptoslabs.com:443" "key" []
              [CreateTable; ReadCheckpoint (Some {| v := VBigInt 100 |});
               OpenStream {| url := "grpc.testnet.aptoslabs.com:443";
                             apiKey := "key"; startingVersion := 100 |};
               Yield (EStatus "connected")]
              2 (batch_from 100) (WriteCheckpoint 105) [])
    as (last_tx & ver & Hl & Hv & Ha & _ & _ & Hfinal);
    [vm_compute; reflexivity | discriminate |].
  injection Hl as <-. injection Hv as <-. exact (Hfinal eq_refl).
Defined.

(** ** Delivery comes before the checkpoint *)

(** C2. Cut a run of the resumable consumer at any point. If the next
    action is the upsert of a checkpoint, the last action before the cut is
    the [yield] of the Data event whose next version is upserted: the write
    never precedes the delivery of its batch. And the checkpoint that a
    crash at the cut leaves in the store is the one the run started with or
    the next version of a batch that was already yielded: restarting from
    it can replay a batch that was seen, and cannot skip one that was not. *)
Theorem checkpoint_written_after_yield
    (streamTransactions : StreamArgs -> EventIterator)
    {S : Type} (body : S -> StreamEvent -> Completion S)
    (db : Database) (url apiKey : string) (s : S)
    (pre post : list Action) :
  trace (streamAndPersistTransactions streamTransactions body db url apiKey s)
  = pre ++ post ->
  (forall value post',
      post = WriteCheckpoint value :: post' ->
      exists pre' chainId transactions,
        pre = pre' ++ [Yield (EData chainId transactions)] /\
        nextStartingVersion transactions = inr value) /\
  (checkpoint (db_after db pre) = checkpoint db \/
   exists chainId transactions value,
     In (Yield (EData chainId transactions)) pre /\
     nextStartingVersion transactions = inr value /\
     checkpoint (db_after db pre) = Some (VBigInt value)).
Proof.
  intros H. split.
  - intros value post' ->.
    destruct (consumer_write_follows_yield _ _ _ _ _ _ _ _ _ H)
      as (pre' & c & txs & -> & Hn & _).
    eauto.
  - revert post H. induction pre as [|a pre IH] using rev_ind; intros post H;
      [now left|].
    rewrite <- app_assoc in H. cbn [app] in H.
    rewrite db_after_app, db_after_cons. cbn [db_after foldl].
    assert (Hkeep : checkpoint (db_after db pre) = checkpoint db \/
                    exists chainId transactions value,
                      In (Yield (EData chainId transactions)) (pre ++ [a]) /\
                      nextStartingVersion transactions = inr value /\
                      checkpoint (db_after db pre) = Some (VBigInt value)).
    { destruct (IH _ H) as [Hsame|(c & txs & n & Hin & Hn & Hc)]; [now left|].
      right. exists c, txs, n. rewrite in_app_iff. auto. }
    destruct a; cbn [effect]; try exact Hkeep.
    + now rewrite exec_create_table_checkpoint.
    + destruct (consumer_write_follows_yield _ _ _ _ _ _ _ _ _ H)
        as (pre' & c & txs & -> & Hn & db' & Hq).
      rewrite Hq.
      right. exists c, txs, value. rewrite !in_app_iff. cbn [In].
      apply query_run_checkpoint in Hq as [Hq _]. auto.
Qed.

(** A crash after the batch 100..104 was yielded and before its checkpoint
    is written leaves the checkpoint at 100: the batch is delivered again. *)
Lemma checkpoint_written_after_yield_witness :
  trace (main_01_sqlite testnet_node (store_holding (VBigInt 100)) "key")
  = [CreateTable; ReadCheckpoint (Some {| v := VBigInt 100 |});
     OpenStream {| url := "grpc.testnet.aptoslabs.com:443";
                   apiKey := "key"; startingVersion := 100 |};
     Yield (EStatus "connected"); Yield (EData 2 (batch_from 100))]
    ++ [WriteCheckpoint 105] /\
  checkpoint
    (db_after (store_holding (VBigInt 100))
       [CreateTable; ReadCheckpoint (Some {| v := VBigInt 100 |});
        OpenStream {| url := "grpc.testnet.aptoslabs.com:443";
                      apiKey := "key"; startingVersion := 100 |};
        Yield (EStatus "connected"); Yield (EData 2 (batch_from 100))])
  = Some (VBigInt 100) /\
  exists pre' chainId transactions,
    [CreateTable; ReadCheckpoint (Some {| v := VBigInt 100 |});
     OpenStream {| url := "grpc.testnet.aptoslabs.com:443";
                   apiKey := "key"; startingVersion := 100 |};
     Yield (EStatus "connected"); Yield (EData 2 (batch_from 100))]
    = pre' ++ [Yield (EData chainId transactions)] /\
    nextStartingVersion transactions = inr 105.
Proof.
  split; [vm_compute; reflexivity|]. split; [vm_compute; reflexivity|].
  refine (proj1 (checkpoint_written_after_yield
                   testnet_node main_body (store_holding (VBigInt 100))
                   "grpc.testnet.aptoslabs.com:443" "key" [] _ _ _)
                105 [] eq_refl).
  vm_compute; reflexivity.
Defined.

(** ** Where a session starts *)

Lemma opened_consumer_trace row args (t : list Action) :
  opened ([CreateTable; ReadCheckpoint row; OpenStream args] ++ t)
  = args :: opened t.
Proof. reflexivity. Qed.

Lemma yields_consumer_trace row args (t : list Action) :
  yields ([CreateTable; ReadCheckpoint row; OpenStream args] ++ t) = yields t.
Proof. reflexivity. Qed.

(** When [BigInt] accepts what the store returned, one session is opened,
    at that version. *)
Lemma consumer_opens
    (streamTransactions : StreamArgs -> EventIterator)
    {S : Type} (body : S -> StreamEvent -> Completion S)
    (db : Database) (url apiKey : string) (s : S) (ver : Z) :
  BigInt (default (VBigInt 0) (checkpoint db)) = inr ver ->
  opened (trace (streamAndPersistTransactions streamTransactions body db url apiKey s))
  = [{| url := url; apiKey := apiKey; startingVersion := ver |}].
Proof.
  intros Hv.
  destruct (consumer_cases streamTransactions body db url apiKey s)
    as [(e & Hb & ->)|(z & Hb & ->)]; [congruence|].
  assert (z = ver) as -> by congruence.
  cbn [after trace]. now rewrite opened_consumer_trace, loop_opened.
Qed.

(** What is yielded is the beginning of what the session holds. *)
Lemma consumer_yields
    (streamTransactions : StreamArgs -> EventIterator)
    {S : Type} (body : S -> StreamEvent -> Completion S)
    (db : Database) (url apiKey : string) (s : S) (args : StreamArgs) :
  In args (opened (trace (streamAndPersistTransactions
                            streamTransactions body db url apiKey s))) ->
  yields (trace (streamAndPersistTransactions streamTransactions body db url apiKey s))
    `prefix_of` events (streamTransactions args).
Proof.
  destruct (consumer_cases streamTransactions body db url apiKey s)
    as [(e & Hb & ->)|(z & Hb & ->)]; cbn [after trace outcome].
  - intros [].
  - rewrite opened_consumer_trace, loop_opened, yields_consumer_trace.
    intros [<-|[]]. apply loop_yields.
Qed.

(** C3. The consumer opens one session, with the [url] and [apiKey] it was
    given: at version 0 when the store holds nothing under
    ['startingVersion'], and at the stored version otherwise. *)
Theorem session_starts_at_checkpoint
    (streamTransactions : StreamArgs -> EventIterator)
    {S : Type} (body : S -> StreamEvent -> Completion S)
    (db : Database) (url apiKey : string) (s : S) :
  match checkpoint db with
  | None =>
      opened (trace (streamAndPersistTransactions streamTransactions body db url apiKey s))
      = [{| url := url; apiKey := apiKey; startingVersion := 0 |}]
  | Some value =>
      forall ver,
        BigInt value = inr ver ->
        opened (trace (streamAndPersistTransactions streamTransactions body db url apiKey s))
        = [{| url := url; apiKey := apiKey; startingVersion := ver |}]
  end.
Proof.
  destruct (checkpoint db) as [value|] eqn:Hc.
  - intros ver Hv. apply consumer_opens. now rewrite Hc.
  - apply consumer_opens. now rewrite Hc.
Qed.

(** The store holds checkpoint 100: the session starts at 100, not at 0. *)
Lemma session_starts_at_checkpoint_witness :
  BigInt (VBigInt 100) = inr 100 /\
  opened (trace (main_01_sqlite testnet_node (store_holding (VBigInt 100)) "key"))
  = [{| url := "grpc.testnet.aptoslabs.com:443"; apiKey := "key";
        startingVersion := 100 |}].
Proof.
  split; [reflexivity|].
  exact (session_starts_at_checkpoint
           testnet_node main_body (store_holding (VBigInt 100))
           "grpc.testnet.aptoslabs.com:443" "key" [] 100 eq_refl).
Defined.

(** C10. Whatever the store returned for the version (a string, a number
    or a bigint), the [startingVersion] of a session that the consumer
    opens is the integer that [BigInt] makes of it, and it is [0] when the
    store returned no row. *)
Theorem startingVersion_is_BigInt_of_checkpoint
    (streamTransactions : StreamArgs -> EventIterator)
    {S : Type} (body : S -> StreamEvent -> Completion S)
    (db : Database) (url apiKey : string) (s : S) (args : StreamArgs) :
  In args (opened (trace (streamAndPersistTransactions
                            streamTransactions body db url apiKey s))) ->
  match checkpoint db with
  | Some value => BigInt value = inr (startingVersion args)
  | None => startingVersion args = 0
  end.
Proof.
  destruct (consumer_cases streamTransactions body db url apiKey s)
    as [(e & Hb & ->)|(z & Hb & ->)]; cbn [after trace].
  - intros [].
  - rewrite opened_consumer_trace, loop_opened. intros [<-|[]].
    cbn [startingVersion].
    destruct (checkpoint db) as [value|]; cbn [from_option id BigInt] in Hb;
      congruence.
Qed.

(** The store returns the text ["100"]: the session starts at the bigint 100. *)
Lemma startingVersion_is_BigInt_of_checkpoint_witness :
  In {| url := "grpc.testnet.aptoslabs.com:443"; apiKey := "key";
        startingVersion := 100 |}
     (opened (trace (main_01_sqlite testnet_node (store_holding (VString "100")) "key"))) /\
  BigInt (VString "100") = inr 100.
Proof.
  split; [vm_compute; auto|].
  apply (startingVersion_is_BigInt_of_checkpoint
           testnet_node main_body (store_holding (VString "100"))
           "grpc.testnet.aptoslabs.com:443" "key" []
           {| url := "grpc.testnet.aptoslabs.com:443"; apiKey := "key";
              startingVersion := 100 |}).
  vm_compute; auto.
Defined.

(** ** Events are passed through *)

(** The loop either goes through the whole stream, handing every event to
    the consumer, or stops at the first event at which the body breaks or
    throws or for which the upsert fails, having handed over every event
    up to that one. *)
Lemma loop_runs_through_or_stops {S : Type}
    (body : S -> StreamEvent -> Completion S) (stream : EventIterator) :
  forall db s,
    is_Some (kv db) ->
    (exists s',
        advance body s (events stream) = Some s' /\
        yields (trace (generator_loop body stream db s)) = events stream /\
        outcome (generator_loop body stream db s) = end_of stream s') \/
    (exists earlier event later s0,
        events stream = earlier ++ event :: later /\
        yields (trace (generator_loop body stream db s)) = earlier ++ [event] /\
        advance body s earlier = Some s0 /\
        ((exists s', body s0 event = Break s' /\
                     outcome (generator_loop body stream db s) = Broke s') \/
         (exists e, body s0 event = Throw e /\
                    outcome (generator_loop body stream db s) = BodyThrew e) \/
         (exists s' e db0,
             body s0 event = Normal s' /\ is_Some (kv db0) /\
             persist event db0 = inl e /\
             outcome (generator_loop body stream db s) = SequenceThrew e))).
Proof.
  induction stream as [| | |ev rest IH]; intros db s Hkv; cbn [generator_loop events];
    try (left; exists s; repeat split; reflexivity).
  destruct (body s ev) as [s1|s1|e] eqn:Hb.
  - destruct (persist ev db) as [e|[w db']] eqn:Hp.
    + right. exists [], ev, (events rest), s. repeat split.
      right. right. exists s1, e, db. auto.
    + assert (Hy : forall t, yields ((Yield ev :: w) ++ t) = ev :: yields t).
      { intros t.
        apply persist_inr in Hp as [(-> & _)|(c & txs & n & -> & _ & -> & _)];
          reflexivity. }
      assert (Hkv' : is_Some (kv db')).
      { apply persist_inr in Hp as [(_ & -> & _)|(c & txs & n & _ & _ & _ & Hq)];
          [exact Hkv|now apply query_run_checkpoint in Hq]. }
      cbn [after trace outcome]. rewrite Hy.
      destruct (IH db' s1 Hkv')
        as [(s' & Ha & Hys & Ho)|(earlier & event & later & s0 & He & Hys & Ha & Hstop)].
      * left. exists s'. cbn [advance end_of]. rewrite Hb, Hys. auto.
      * right. exists (ev :: earlier), event, later, s0.
        cbn [advance app]. rewrite Hb, Hys, He. auto.
  - right. exists [], ev, (events rest), s. repeat split. left. eauto.
  - right. exists [], ev, (events rest), s. repeat split. right. left. eauto.
Qed.

(** C9. The events that the consumer yields are the events of the session
    it opened, unchanged and in the same order, none dropped and none
    added: all the events of the session when the consumer's body handled
    every one of them and every upsert succeeded, the loop then being left
    as the session ended (its end, its rejection, or still open); and
    otherwise the events up to and including the first one at which the
    body broke or threw or for which the upsert failed. *)
Theorem events_are_passed_through
    (streamTransactions : StreamArgs -> EventIterator)
    {S : Type} (body : S -> StreamEvent -> Completion S)
    (db : Database) (url apiKey : string) (s : S) (args : StreamArgs) :
  In args (opened (trace (streamAndPersistTransactions
                            streamTransactions body db url apiKey s))) ->
  (exists s',
      advance body s (events (streamTransactions args)) = Some s' /\
      yields (trace (streamAndPersistTransactions
                       streamTransactions body db url apiKey s))
      = events (streamTransactions args) /\
      outcome (streamAndPersistTransactions streamTransactions body db url apiKey s)
      = end_of (streamTransactions args) s') \/
  (exists earlier event later s0,
      events (streamTransactions args) = earlier ++ event :: later /\
      yields (trace (streamAndPersistTransactions
                       streamTransactions body db url apiKey s))
      = earlier ++ [event] /\
      advance body s earlier = Some s0 /\
      ((exists s',
           body s0 event = Break s' /\
           outcome (streamAndPersistTransactions streamTransactions body db url apiKey s)
           = Broke s') \/
       (exists e,
           body s0 event = Throw e /\
           outcome (streamAndPersistTransactions streamTransactions body db url apiKey s)
           = BodyThrew e) \/
       (exists s' e db0,
           body s0 event = Normal s' /\ is_Some (kv db0) /\
           persist event db0 = inl e /\
           outcome (streamAndPersistTransactions streamTransactions body db url apiKey s)
           = SequenceThrew e))).
Proof.
  destruct (consumer_cases streamTransactions body db url apiKey s)
    as [(e & Hb & ->)|(z & Hb & ->)]; cbn [after trace outcome].
  - intros [].
  - rewrite opened_consumer_trace, loop_opened, yields_consumer_trace.
    intros [<-|[]].
    apply loop_runs_through_or_stops, exec_create_table_exists.
Qed.

(** A session that stays open after a status event and a batch: both are
    yielded, though the loop has not finished. *)
Lemma events_are_passed_through_witness :
  In {| url := "u"; apiKey := "key"; startingVersion := 7 |}
     (opened (trace (streamAndPersistTransactions
                       testnet_node (fun (n : nat) _ => Normal (Datatypes.S n))
                       (store_holding (VBigInt 7)) "u" "key" 0%nat))) /\
  yields (trace (streamAndPersistTransactions
                   testnet_node (fun (n : nat) _ => Normal (Datatypes.S n))
                   (store_holding (VBigInt 7)) "u" "key" 0%nat))
  = [EStatus "connected"; EData 2 (batch_from 7)] /\
  outcome (streamAndPersistTransactions
             testnet_node (fun (n : nat) _ => Normal (Datatypes.S n))
             (store_holding (VBigInt 7)) "u" "key" 0%nat)
  = Waiting 2%nat.
Proof.
  split; [vm_compute; auto|].
  destruct (events_are_passed_through
              testnet_node (fun (n : nat) _ => Normal (Datatypes.S n))
              (store_holding (VBigInt 7)) "u" "key" 0%nat
              {| url := "u"; apiKey := "key"; startingVersion := 7 |})
    as [(s' & Ha & Hy & Ho)|(earlier & event & later & s0 & _ & _ & _ & Hstop)];
    [vm_compute; auto| |].
  - injection Ha as <-. split; [exact Hy|exact Ho].
  - split; vm_compute; reflexivity.
Defined.

(** ** Resuming *)

Lemma writes_snoc (t : list Action) a :
  writes (t ++ [a])
  = writes t ++ match a with WriteCheckpoint value => [value] | _ => [] end.
Proof. unfold writes. rewrite omap_app. now destruct a. Qed.

(** The values that the loop writes are those that the store accepted. *)
Lemma loop_writes_fit {S : Type} (body : S -> StreamEvent -> Completion S)
    (stream : EventIterator) : forall db s,
  Forall (fun value => fits_int64 value = true)
         (writes (trace (generator_loop body stream db s))).
Proof.
  induction stream as [| | |ev rest IH]; intros db s; cbn [generator_loop];
    try (now constructor).
  destruct (body s ev) as [s'|s'|e]; try (now constructor).
  destruct (persist ev db) as [e|[w db']] eqn:Hp; [now constructor|].
  cbn [after trace].
  apply persist_inr in Hp as [(-> & -> & _)|(c & txs & n & -> & _ & -> & Hq)].
  - apply (IH db s').
  - change (Forall (fun value => fits_int64 value = true)
              (n :: writes (trace (generator_loop body rest db' s')))).
    constructor; [exact (query_run_fits _ _ _ Hq)|apply IH].
Qed.

(** Once the table exists, the store holds the last value written. *)
Lemma db_after_last_write (t : list Action) : forall db value,
  is_Some (kv db) ->
  Forall (fun v => fits_int64 v = true) (writes t) ->
  last (writes t) = Some value ->
  checkpoint (db_after db t) = Some (VBigInt value).
Proof.
  induction t as [|a t IH] using rev_ind; intros db value Hkv Hfit; [discriminate|].
  rewrite writes_snoc in Hfit |- *. apply Forall_app in Hfit as [Hfit Ha].
  rewrite db_after_app, db_after_cons. cbn [db_after foldl].
  destruct a; rewrite ?app_nil_r; cbn [effect]; try (now apply IH).
  - rewrite exec_create_table_checkpoint. now apply IH.
  - rewrite last_snoc. intros [= ->].
    destruct (query_run_exists value (db_after db t)) as [db' Hq];
      [now apply db_after_exists|now inversion Ha|].
    rewrite Hq. now apply query_run_checkpoint in Hq.
Qed.

Lemma delivered_app (a b : list StreamEvent) :
  delivered (a ++ b) = delivered a ++ delivered b.
Proof. apply flat_map_app. Qed.

Lemma head_app_Some {A} (a b : list A) x : head a = Some x -> head (a ++ b) = Some x.
Proof. now destruct a. Qed.

(** C4. A run committed checkpoint [ver] last and stopped. A fresh run on
    the store it left reads [ver] back and opens its session with
    [startingVersion = ver]; the stream being inclusive, the first
    transaction that this run delivers has a version that is not below
    [ver]. *)
Theorem resume_does_not_regress
    (streamTransactions : StreamArgs -> EventIterator)
    {S1 S2 : Type}
    (body1 : S1 -> StreamEvent -> Completion S1)
    (body2 : S2 -> StreamEvent -> Completion S2)
    (db : Database) (url apiKey : string) (s1 : S1) (s2 : S2) (ver : Z) :
  inclusive streamTransactions ->
  last (writes (trace (streamAndPersistTransactions
                         streamTransactions body1 db url apiKey s1)))
  = Some ver ->
  checkpoint (final_db (streamAndPersistTransactions
                          streamTransactions body1 db url apiKey s1))
  = Some (VBigInt ver) /\
  opened (trace (streamAndPersistTransactions streamTransactions body2
                   (final_db (streamAndPersistTransactions
                                streamTransactions body1 db url apiKey s1))
                   url apiKey s2))
  = [{| url := url; apiKey := apiKey; startingVersion := ver |}] /\
  forall first_tx first_ver,
    head (delivered (yields (trace (streamAndPersistTransactions
                                      streamTransactions body2
                                      (final_db (streamAndPersistTransactions
                                                   streamTransactions body1 db url apiKey s1))
                                      url apiKey s2))))
    = Some first_tx ->
    version first_tx = Some first_ver ->
    ver <= first_ver.
Proof.
  intros Hincl Hlast.
  assert (Hc : checkpoint (final_db (streamAndPersistTransactions
                                       streamTransactions body1 db url apiKey s1))
               = Some (VBigInt ver)).
  { rewrite consumer_final_db. revert Hlast.
    destruct (consumer_cases streamTransactions body1 db url apiKey s1)
      as [(e & _ & ->)|(z & _ & ->)]; cbn [after trace]; [discriminate|].
    intros Hlast. rewrite db_after_app, !db_after_cons. cbn [db_after foldl effect].
    apply db_after_last_write;
      [apply exec_create_table_exists|apply loop_writes_fit|exact Hlast]. }
  split; [exact Hc|].
  pose proof (consumer_opens streamTransactions body2
                (final_db (streamAndPersistTransactions
                             streamTransactions body1 db url apiKey s1))
                url apiKey s2 ver) as Hopen.
  rewrite Hc in Hopen. specialize (Hopen eq_refl).
  split; [exact Hopen|].
  intros first_tx first_ver Hhead Hver.
  destruct (consumer_yields streamTransactions body2 _ url apiKey s2 _
              ltac:(rewrite Hopen; now left)) as [remaining Hev].
  apply (Hincl {| url := url; apiKey := apiKey; startingVersion := ver |}
               first_tx first_ver); [|exact Hver].
  rewrite Hev, delivered_app. now apply head_app_Some.
Qed.

(** A first run on a fresh store commits 5 and is stopped; the next run
    starts at 5 and the first transaction it delivers has version 5. *)
Lemma resume_does_not_regress_witness :
  inclusive testnet_node /\
  last (writes (trace (main_01_sqlite testnet_node fresh_store "key"))) = Some 5 /\
  checkpoint (final_db (main_01_sqlite testnet_node fresh_store "key"))
  = Some (VBigInt 5) /\
  opened (trace (main_01_sqlite testnet_node
                   (final_db (main_01_sqlite testnet_node fresh_store "key")) "key"))
  = [{| url := "grpc.testnet.aptoslabs.com:443"; apiKey := "key";
        startingVersion := 5 |}] /\
  5 <= 5.
Proof.
  assert (Hincl : inclusive testnet_node).
  { intros args first_tx first_ver Hhead Hver. cbn in Hhead.
    injection Hhead as <-. cbn in Hver. injection Hver as <-. lia. }
  split; [exact Hincl|]. split; [vm_compute; reflexivity|].
  destruct (resume_does_not_regress
              testnet_node main_body main_body fresh_store
              "grpc.testnet.aptoslabs.com:443" "key" [] [] 5 Hincl)
    as (Hc & Ho & Hfirst); [vm_compute; reflexivity|].
  split; [exact Hc|]. split; [exact Ho|].
  apply (Hfirst (tx 5) 5); vm_compute; reflexivity.
Defined.

(** ** A Data event of another chain *)

Lemma main_body_chain_mismatch console chainId transactions :
  chainId <> 2 ->
  main_body console (EData chainId transactions)
  = Throw (Error ("Transaction stream returned a chainId of "
                  +:+ showBigInt chainId
                  +:+ ", but expected testnet chainId=2")).
Proof.
  intros Hc. cbn [main_body]. now destruct (Z.eqb_spec chainId 2).
Qed.

(** C5. In 01_sqlite.ts, when a Data event reports a chain other than
    testnet's 2, the loop body throws the [Error] that names the chain; the
    sequence ends there (nothing is yielded after that event, the stream is
    closed), and the store stays as it was when the event was yielded: no
    checkpoint is written for that batch or for a later one. *)
Theorem chain_mismatch_is_fatal
    (streamTransactions : StreamArgs -> EventIterator)
    (db : Database) (APTOS_API_KEY_TESTNET : string)
    (pre : list Action) (chainId : Z) (transactions : list Transaction)
    (post : list Action) :
  trace (main_01_sqlite streamTransactions db APTOS_API_KEY_TESTNET)
  = pre ++ Yield (EData chainId transactions) :: post ->
  chainId <> 2 ->
  post = [CloseStream] /\
  outcome (main_01_sqlite streamTransactions db APTOS_API_KEY_TESTNET)
  = BodyThrew (Error ("Transaction stream returned a chainId of "
                      +:+ showBigInt chainId
                      +:+ ", but expected testnet chainId=2")) /\
  final_db (main_01_sqlite streamTransactions db APTOS_API_KEY_TESTNET)
  = db_after db pre.
Proof.
  unfold main_01_sqlite. intros H Hc.
  destruct (consumer_at_yield _ _ _ _ _ _ _ _ _ H)
    as (rest & s0 & _ & Ht & Hf & Ho).
  rewrite <- Hf, <- Ho. revert Ht. cbn [generator_loop].
  rewrite (main_body_chain_mismatch _ _ _ Hc). cbn [trace final_db outcome].
  now intros [= <-].
Qed.

(** A Data event reports chain 1: the program fails at the first batch and
    the store keeps checkpoint 100. *)
Lemma chain_mismatch_is_fatal_witness :
  trace (main_01_sqlite mainnet_node (store_holding (VBigInt 100)) "key")
  = [CreateTable; ReadCheckpoint (Some {| v := VBigInt 100 |});
     OpenStream {| url := "grpc.testnet.aptoslabs.com:443";
                   apiKey := "key"; startingVersion := 100 |}]
    ++ Yield (EData 1 (batch_from 100)) :: [CloseStream] /\
  1 <> 2 /\
  outcome (main_01_sqlite mainnet_node (store_holding (VBigInt 100)) "key")
  = BodyThrew (Error "Transaction stream returned a chainId of 1, but expected testnet chainId=2") /\
  checkpoint (final_db (main_01_sqlite mainnet_node (store_holding (VBigInt 100)) "key"))
  = Some (VBigInt 100).
Proof.
  split; [vm_compute; reflexivity|]. split; [lia|].
  destruct (chain_mismatch_is_fatal
              mainnet_node (store_holding (VBigInt 100)) "key"
              [CreateTable; ReadCheckpoint (Some {| v := VBigInt 100 |});
               OpenStream {| url := "grpc.testnet.aptoslabs.com:443";
                             apiKey := "key"; startingVersion := 100 |}]
              1 (batch_from 100) [CloseStream])
    as (_ & Ho & Hf); [vm_compute; reflexivity | lia |].
  split; [exact Ho|]. rewrite Hf. vm_compute; reflexivity.
Defined.

(** The loop of 00_basic.ts ends in the same way: the event of the other
    chain is the last one that the body is given. *)
Lemma basic_chain_mismatch_is_fatal (stream : EventIterator) :
  forall console seen out before chainId transactions later,
    for_await main_body stream console = (seen, out) ->
    seen = before ++ EData chainId transactions :: later ->
    chainId <> 2 ->
    later = [] /\
    out = BodyThrew (Error ("Transaction stream returned a chainId of "
                            +:+ showBigInt chainId
                            +:+ ", but expected testnet chainId=2")).
Proof.
  induction stream as [| | |event rest IH];
    intros console seen out before chainId transactions later;
    try (cbn [for_await]; intros [= <- <-] H; destruct before; discriminate).
  cbn [for_await]. intros Hrun Hseen Hc.
  destruct before as [|b before].
  - destruct (main_body console event) as [s'|s'|e] eqn:Hb.
    + destruct (for_await main_body rest s') as [seen' out'].
      injection Hrun as <- <-. injection Hseen as -> _.
      rewrite (main_body_chain_mismatch _ _ _ Hc) in Hb. discriminate.
    + injection Hrun as <- <-. injection Hseen as -> _.
      rewrite (main_body_chain_mismatch _ _ _ Hc) in Hb. discriminate.
    + injection Hrun as <- <-. injection Hseen as -> <-.
      rewrite (main_body_chain_mismatch _ _ _ Hc) in Hb. split; congruence.
  - destruct (main_body console event) as [s'|s'|e] eqn:Hb.
    + destruct (for_await main_body rest s') as [seen' out'] eqn:Hrest.
      injection Hrun as <- <-. injection Hseen as _ ->.
      now apply (IH _ _ _ _ _ _ _ Hrest eq_refl).
    + injection Hrun as <- <-. destruct before; discriminate.
    + injection Hrun as <- <-. destruct before; discriminate.
Qed.

(** ** Batches are not empty *)

(** An empty batch from the wire ends the framed sequence with an Error
    event; no Data event wraps it. *)
Lemma frame_rejects_empty_batch chainId (rest : list WireBatch) :
  frame ({| wire_chainId := chainId; wire_transactions := [] |} :: rest)
  = Next (EError "protocol violation: empty batch") Done.
Proof. reflexivity. Qed.

Lemma frame_data_not_empty (wire : list WireBatch) chainId transactions :
  In (EData chainId transactions) (events (frame wire)) -> transactions <> [].
Proof.
  induction wire as [|batch wire IH]; [intros []|].
  cbn [frame].
  destruct (wire_transactions batch) as [|t ts] eqn:Hb; cbn [events In].
  - intros [[=]|[]].
  - intros [[= _ <-]|Hin]; [discriminate|auto].
Qed.

Lemma access_first_and_last {A} (array : list A) :
  array <> [] ->
  is_Some (index array 0) /\ is_Some (index array (Z.of_nat (length array) - 1)).
Proof.
  intros Hne. rewrite index_first, index_last. split.
  - destruct array; [done|eauto].
  - destruct array as [|a l] using rev_ind; [done|]. rewrite last_snoc. eauto.
Qed.

(** C6. Every Data event of the sequence that the session frames holds at
    least one transaction (a batch without transactions is not delivered as
    a Data event), so the accesses [transactions[0]] and
    [transactions[transactions.length - 1]] of the examples find a
    transaction, and the loop body of the examples does not fail with a
    [TypeError] on it. *)
Theorem delivered_batch_is_not_empty
    (wire : list WireBatch) (chainId : Z) (transactions : list Transaction) :
  In (EData chainId transactions) (events (frame wire)) ->
  transactions <> [] /\
  is_Some (index transactions 0) /\
  is_Some (index transactions (Z.of_nat (length transactions) - 1)) /\
  forall console, main_body console (EData chainId transactions) <> Throw TypeError.
Proof.
  intros Hin. pose proof (frame_data_not_empty _ _ _ Hin) as Hne.
  destruct (access_first_and_last _ Hne) as [Hfirst Hlast].
  repeat split; try assumption.
  intros console. cbn [main_body].
  destruct (negb (chainId =? 2)); [discriminate|].
  destruct Hfirst as [first ->]. destruct Hlast as [last_tx ->]. discriminate.
Qed.

(** The server sends the batch 100..104 and then a batch without
    transactions: the first is delivered, the second is not. *)
Lemma delivered_batch_is_not_empty_witness :
  events (frame [{| wire_chainId := 2; wire_transactions := batch_from 100 |};
                 {| wire_chainId := 2; wire_transactions := [] |}])
  = [EData 2 (batch_from 100); EError "protocol violation: empty batch"] /\
  batch_from 100 <> [] /\
  index (batch_from 100) 0 = Some (tx 100) /\
  index (batch_from 100) (Z.of_nat (length (batch_from 100)) - 1) = Some (tx 104).
Proof.
  split; [reflexivity|].
  destruct (delivered_batch_is_not_empty
              [{| wire_chainId := 2; wire_transactions := batch_from 100 |};
               {| wire_chainId := 2; wire_transactions := [] |}]
              2 (batch_from 100)) as (Hne & _); [now left|].
  split; [exact Hne|]. split; reflexivity.
Defined.

(** The same through the resumable consumer: on a framed session, every
    Data event that the generator yields holds a transaction. *)
Lemma consumer_yields_no_empty_batch
    (server : StreamArgs -> list WireBatch)
    {S : Type} (body : S -> StreamEvent -> Completion S)
    (db : Database) (url apiKey : string) (s : S) chainId transactions :
  In (Yield (EData chainId transactions))
     (trace (streamAndPersistTransactions
               (fun args => frame (server args)) body db url apiKey s)) ->
  transactions <> [].
Proof.
  intros Hin.
  assert (Hy : EData chainId transactions
               ∈ yields (trace (streamAndPersistTransactions
                                  (fun args => frame (server args)) body db url apiKey s))).
  { apply list_elem_of_In in Hin. unfold yields. apply list_elem_of_omap.
    now exists (Yield (EData chainId transactions)). }
  revert Hin Hy.
  destruct (consumer_cases (fun args => frame (server args)) body db url apiKey s)
    as [(e & _ & ->)|(z & _ & Hr)].
  - cbn [trace]. intros [[=]|[[=]|[]]].
  - intros _ Hy.
    destruct (consumer_yields (fun args => frame (server args)) body db url apiKey s
                {| url := url; apiKey := apiKey; startingVersion := z |})
      as [remaining Hev].
    { rewrite Hr. cbn [after trace]. rewrite opened_consumer_trace. now left. }
    apply (frame_data_not_empty
             (server {| url := url; apiKey := apiKey; startingVersion := z |}) chainId).
    apply list_elem_of_In. rewrite Hev. apply elem_of_app. now left.
Qed.

(** ** Events that are not Data *)



(** ** Cancellation *)

(** C8. When the consumer's loop is left by a [break], the body broke at
    the last event that was yielded, the only thing the generator did after
    that [yield] is to close the stream, and the store is as it was when
    the event was yielded: the checkpoint of the batch at which the
    consumer stopped is not written, and nothing is written later. *)
Theorem no_checkpoint_after_cancellation
    (streamTransactions : StreamArgs -> EventIterator)
    {S : Type} (body : S -> StreamEvent -> Completion S)
    (db : Database) (url apiKey : string) (s s' : S) :
  outcome (streamAndPersistTransactions streamTransactions body db url apiKey s)
  = Broke s' ->
  exists pre event s0,
    body s0 event = Break s' /\
    trace (streamAndPersistTransactions streamTransactions body db url apiKey s)
    = pre ++ [Yield event; CloseStream] /\
    final_db (streamAndPersistTransactions streamTransactions body db url apiKey s)
    = db_after db pre.
Proof.
  destruct (consumer_cases streamTransactions body db url apiKey s)
    as [(e & _ & ->)|(z & _ & ->)]; cbn [after trace final_db outcome];
    [discriminate|].
  intros Ho.
  destruct (loop_left_by_body body
              (streamTransactions {| url := url; apiKey := apiKey;
                                     startingVersion := z |})
              (exec_create_table db) s)
    as [[Hno _]|(pre & event & s0 & Ht & Hf & Hb)]; [now destruct (Hno s')|].
  rewrite Ho in Hb. rewrite Ht, Hf.
  exists ([CreateTable; ReadCheckpoint (Build_Row <$> checkpoint db);
           OpenStream {| url := url; apiKey := apiKey; startingVersion := z |}]
            ++ pre), event, s0.
  split; [exact Hb|]. split; [now rewrite <- app_assoc|].
  now rewrite db_after_app.
Qed.

(** The consumer breaks at the batch 100..104: the store keeps 100. *)
Lemma no_checkpoint_after_cancellation_witness :
  outcome (streamAndPersistTransactions testnet_node break_at_data
             (store_holding (VBigInt 100)) "u" "key" 0%nat)
  = Broke 1%nat /\
  trace (streamAndPersistTransactions testnet_node break_at_data
           (store_holding (VBigInt 100)) "u" "key" 0%nat)
  = [CreateTable; ReadCheckpoint (Some {| v := VBigInt 100 |});
     OpenStream {| url := "u"; apiKey := "key"; startingVersion := 100 |};
     Yield (EStatus "connected"); Yield (EData 2 (batch_from 100)); CloseStream] /\
  checkpoint (final_db (streamAndPersistTransactions testnet_node break_at_data
                          (store_holding (VBigInt 100)) "u" "key" 0%nat))
  = Some (VBigInt 100) /\
  exists pre event s0,
    break_at_data s0 event = Break 1%nat /\
    trace (streamAndPersistTransactions testnet_node break_at_data
             (store_holding (VBigInt 100)) "u" "key" 0%nat)
    = pre ++ [Yield event; CloseStream] /\
    final_db (streamAndPersistTransactions testnet_node break_at_data
                (store_holding (VBigInt 100)) "u" "key" 0%nat)
    = db_after (store_holding (VBigInt 100)) pre.
Proof.
  split; [vm_compute; reflexivity|]. split; [vm_compute; reflexivity|].
  split; [vm_compute; reflexivity|].
  apply (no_checkpoint_after_cancellation
           testnet_node break_at_data (store_holding (VBigInt 100))
           "u" "key" 0%nat 1%nat).
  vm_compute; reflexivity.
Defined.

(** ** The scenarios, run *)

(** The three representations of version 100 that the store can return. *)
Example BigInt_of_text : BigInt (VString "100") = inr 100.
Proof. reflexivity. Qed.

Example BigInt_of_number : BigInt (VNumber (S754_finite false 25 2)) = inr 100.
Proof. reflexivity. Qed.

Example BigInt_of_bigint : BigInt (VBigInt 100) = inr 100.
Proof. reflexivity. Qed.

Example BigInt_of_padded_hex : BigInt (VString " 0x1F ") = inr 31.
Proof. reflexivity. Qed.

Example BigInt_of_negative_text : BigInt (VString "-7") = inr (-7).
Proof. reflexivity. Qed.

Example BigInt_of_empty_text : BigInt (VString "") = inr 0.
Proof. reflexivity. Qed.

(** What [BigInt] rejects: the generator then throws before any session. *)
Example BigInt_of_fraction_text : BigInt (VString "1.5") = inl SyntaxError.
Proof. reflexivity. Qed.

Example BigInt_of_signed_hex : BigInt (VString "-0x10") = inl SyntaxError.
Proof. reflexivity. Qed.

Example BigInt_of_fraction : BigInt (VNumber (S754_finite false 3 (-1))) = inl RangeError.
Proof. reflexivity. Qed.

Example BigInt_of_NaN : BigInt (VNumber S754_nan) = inl RangeError.
Proof. reflexivity. Qed.

Example unreadable_checkpoint_opens_nothing :
  main_01_sqlite testnet_node (store_holding (VString "1.5")) "key"
  = {| trace := [CreateTable; ReadCheckpoint (Some {| v := VString "1.5" |})];
       final_db := store_holding (VString "1.5");
       outcome := SequenceThrew SyntaxError |}.
Proof. reflexivity. Qed.

(** Scenario 1: the store is empty, the session starts at 0. *)
Example fresh_store_starts_at_0 :
  opened (trace (main_01_sqlite testnet_node fresh_store "key"))
  = [{| url := "grpc.testnet.aptoslabs.com:443"; apiKey := "key";
        startingVersion := 0 |}].
Proof. reflexivity. Qed.

(** Scenario 3, as a whole run: the batch 100..104 is delivered and logged,
    and the store holds 105. *)
Example batch_100_104_run :
  checkpoint (final_db (main_01_sqlite testnet_node (store_holding (VBigInt 100)) "key"))
  = Some (VBigInt 105) /\
  outcome (main_01_sqlite testnet_node (store_holding (VBigInt 100)) "key")
  = Waiting [console_log "connected";
             console_debug "Got 5 transaction(s) from version 100 to 104."].
Proof. split; vm_compute; reflexivity. Qed.

(** Without the session's framing, a Data event without transactions makes
    both accesses fail: the body of the examples throws a [TypeError], and
    so does the generator when it is resumed. *)
Example empty_batch_access_fails :
  main_body [] (EData 2 []) = Throw TypeError /\
  nextStartingVersion [] = inl TypeError.
Proof. split; reflexivity. Qed.

(** A last transaction without a version cannot be advanced from. *)
Example undefined_version_is_TypeError :
  nextStartingVersion [tx 7; {| version := None |}] = inl TypeError.
Proof. reflexivity. Qed.

(** 00_basic.ts on the node of another chain. *)
Example basic_on_mainnet :
  main_00_basic mainnet_node "key"
  = ([EData 1 (batch_from 0)],
     BodyThrew (Error "Transaction stream returned a chainId of 1, but expected testnet chainId=2")).
Proof. reflexivity. Qed.

(** * Further properties of the examples *)

(** ** What the loop body of the examples throws *)

(** The body throws a [TypeError] exactly on a Data event of chain 2
    without transactions: the chain is checked before the batch is looked
    into, so an empty batch of another chain is reported as a chain
    mismatch. *)
Theorem main_body_TypeError_iff
    (console : list ConsoleLine) (chainId : Z) (transactions : list Transaction) :
  main_body console (EData chainId transactions) = Throw TypeError <->
  chainId = 2 /\ transactions = [].
Proof.
  split.
  - cbn [main_body]. destruct (Z.eqb_spec chainId 2) as [->|Hne]; cbn [negb];
      [|discriminate].
    destruct transactions as [|t l]; [auto|].
    destruct (access_first_and_last (t :: l)) as [[a ->] [b ->]]; discriminate.
  - intros [-> ->]. reflexivity.
Qed.

Lemma nextStartingVersion_inl transactions e :
  nextStartingVersion transactions = inl e -> e = TypeError.
Proof.
  unfold nextStartingVersion.
  destruct (index transactions _) as [t|]; [|congruence].
  destruct (version t); congruence.
Qed.

(** ** A batch whose next version cannot be computed *)

(** When the last transaction of a yielded batch is missing or has no
    version, the run ends at that batch whatever the consumer does: nothing
    is yielded after it, and the store is as it was before the [yield]. *)
Theorem batch_without_next_version_ends_run
    (streamTransactions : StreamArgs -> EventIterator)
    {S : Type} (body : S -> StreamEvent -> Completion S)
    (db : Database) (url apiKey : string) (s : S)
    (pre : list Action) (chainId : Z) (transactions : list Transaction)
    (post : list Action) (e : Thrown) :
  trace (streamAndPersistTransactions streamTransactions body db url apiKey s)
  = pre ++ Yield (EData chainId transactions) :: post ->
  nextStartingVersion transactions = inl e ->
  post = [CloseStream] /\
  final_db (streamAndPersistTransactions streamTransactions body db url apiKey s)
  = db_after db pre.
Proof.
  intros H Hn.
  destruct (consumer_at_yield _ _ _ _ _ _ _ _ _ H) as (rest & s0 & _ & Ht & Hf & _).
  rewrite <- Hf. revert Ht. cbn [generator_loop persist]. rewrite Hn.
  destruct (body s0 (EData chainId transactions)); cbn [trace final_db];
    now intros [= <-].
Qed.

Lemma batch_without_next_version_ends_run_witness :
  trace (main_01_sqlite versionless_node (store_holding (VBigInt 100)) "key")
  = [CreateTable; ReadCheckpoint (Some {| v := VBigInt 100 |});
     OpenStream {| url := "grpc.testnet.aptoslabs.com:443";
                   apiKey := "key"; startingVersion := 100 |};
     Yield (EData 2 (batch_from 100)); WriteCheckpoint 105]
    ++ Yield (EData 2 [tx 105; {| version := None |}]) :: [CloseStream] /\
  nextStartingVersion [tx 105; {| version := None |}] = inl TypeError /\
  checkpoint (final_db (main_01_sqlite versionless_node
                          (store_holding (VBigInt 100)) "key"))
  = Some (VBigInt 105).
Proof.
  split; [vm_compute; reflexivity|]. split; [reflexivity|].
  destruct (batch_without_next_version_ends_run
              versionless_node main_body (store_holding (VBigInt 100))
              "grpc.testnet.aptoslabs.com:443" "key" []
              [CreateTable; ReadCheckpoint (Some {| v := VBigInt 100 |});
               OpenStream {| url := "grpc.testnet.aptoslabs.com:443";
                             apiKey := "key"; startingVersion := 100 |};
               Yield (EData 2 (batch_from 100)); WriteCheckpoint 105]
              2 [tx 105; {| version := None |}] [CloseStream] TypeError)
    as [_ Hf]; [vm_compute; reflexivity | reflexivity |].
  unfold main_01_sqlite. rewrite Hf. vm_compute; reflexivity.
Defined.

(** In 01_sqlite.ts such a batch of chain 2 ends the program with a
    [TypeError]: thrown by the loop body when the batch is empty, and by the
    generator, after the body has logged the batch, when only the version of
    the last transaction is missing. *)
Theorem main_01_sqlite_TypeError
    (streamTransactions : StreamArgs -> EventIterator)
    (db : Database) (APTOS_API_KEY_TESTNET : string)
    (pre : list Action) (transactions : list Transaction)
    (post : list Action) (e : Thrown) :
  trace (main_01_sqlite streamTransactions db APTOS_API_KEY_TESTNET)
  = pre ++ Yield (EData 2 transactions) :: post ->
  nextStartingVersion transactions = inl e ->
  outcome (main_01_sqlite streamTransactions db APTOS_API_KEY_TESTNET)
  = match transactions with
    | [] => BodyThrew TypeError
    | _ :: _ => SequenceThrew TypeError
    end.
Proof.
  unfold main_01_sqlite. intros H Hn.
  destruct (consumer_at_yield _ _ _ _ _ _ _ _ _ H) as (rest & s0 & _ & _ & _ & Ho).
  rewrite <- Ho. cbn [generator_loop persist]. rewrite Hn.
  apply nextStartingVersion_inl in Hn as ->.
  destruct transactions as [|t l]; [reflexivity|].
  cbn [main_body]. change (negb (2 =? 2)) with false. cbv iota.
  destruct (access_first_and_last (t :: l)) as [[a ->] [b ->]]; [discriminate|].
  reflexivity.
Qed.

Lemma main_01_sqlite_TypeError_witness :
  trace (main_01_sqlite versionless_node (store_holding (VBigInt 100)) "key")
  = [CreateTable; ReadCheckpoint (Some {| v := VBigInt 100 |});
     OpenStream {| url := "grpc.testnet.aptoslabs.com:443";
                   apiKey := "key"; startingVersion := 100 |};
     Yield (EData 2 (batch_from 100)); WriteCheckpoint 105]
    ++ Yield (EData 2 [tx 105; {| version := None |}]) :: [CloseStream] /\
  nextStartingVersion [tx 105; {| version := None |}] = inl TypeError /\
  outcome (main_01_sqlite versionless_node (store_holding (VBigInt 100)) "key")
  = SequenceThrew TypeError.
Proof.
  split; [vm_compute; reflexivity|]. split; [reflexivity|].
  apply (main_01_sqlite_TypeError
           versionless_node (store_holding (VBigInt 100)) "key"
           [CreateTable; ReadCheckpoint (Some {| v := VBigInt 100 |});
            OpenStream {| url := "grpc.testnet.aptoslabs.com:443";
                          apiKey := "key"; startingVersion := 100 |};
            Yield (EData 2 (batch_from 100)); WriteCheckpoint 105]
           [tx 105; {| version := None |}] [CloseStream] TypeError);
    [vm_compute; reflexivity | reflexivity].
Defined.

(** ** A stored value that is no integer *)

(** When [BigInt] rejects what the store holds under ['startingVersion'],
    the generator throws that error at its first [next()]: no session is
    opened, nothing is yielded or written, and the stored value stays. *)
Theorem unreadable_checkpoint_opens_no_session
    (streamTransactions : StreamArgs -> EventIterator)
    {S : Type} (body : S -> StreamEvent -> Completion S)
    (db : Database) (url apiKey : string) (s : S)
    (value : SqlValue) (e : Thrown) :
  checkpoint db = Some value ->
  BigInt value = inl e ->
  trace (streamAndPersistTransactions streamTransactions body db url apiKey s)
  = [CreateTable; ReadCheckpoint (Some {| v := value |})] /\
  outcome (streamAndPersistTransactions streamTransactions body db url apiKey s)
  = SequenceThrew e /\
  checkpoint (final_db (streamAndPersistTransactions
                          streamTransactions body db url apiKey s))
  = Some value.
Proof.
  intros Hc Hb.
  destruct (consumer_cases streamTransactions body db url apiKey s)
    as [(e' & Hb' & ->)|(z & Hb' & _)];
    rewrite Hc in Hb'; cbn [from_option id] in Hb'; [|congruence].
  assert (e' = e) as -> by congruence.
  cbn [trace outcome final_db]. rewrite Hc, exec_create_table_checkpoint. auto.
Qed.

Lemma unreadable_checkpoint_opens_no_session_witness :
  checkpoint (store_holding (VNumber (S754_finite false 3 (-1))))
  = Some (VNumber (S754_finite false 3 (-1))) /\
  BigInt (VNumber (S754_finite false 3 (-1))) = inl RangeError /\
  outcome (main_01_sqlite testnet_node
             (store_holding (VNumber (S754_finite false 3 (-1)))) "key")
  = SequenceThrew RangeError.
Proof.
  split; [reflexivity|]. split; [reflexivity|].
  apply (unreadable_checkpoint_opens_no_session
           testnet_node main_body
           (store_holding (VNumber (S754_finite false 3 (-1))))
           "grpc.testnet.aptoslabs.com:443" "key" []
           (VNumber (S754_finite false 3 (-1))) RangeError);
    reflexivity.
Defined.

(** ** Rows of other keys *)

Lemma row_of_effect (k : string) (db : Database) (a : Action) :
  k <> "startingVersion" -> row_of k (effect db a) = row_of k db.
Proof.
  intros Hk. destruct a; cbn [effect]; try reflexivity.
  - unfold exec_create_table, row_of. destruct (kv db) eqn:E; cbn; rewrite ?E; done.
  - unfold query_run, row_of. destruct (kv db) as [t|] eqn:E; cbn; rewrite ?E; [|done].
    destruct (fits_int64 value); cbn; rewrite ?E; [|done].
    now rewrite lookup_insert_ne.
Qed.

Lemma row_of_db_after (k : string) (actions : list Action) : forall db,
  k <> "startingVersion" -> row_of k (db_after db actions) = row_of k db.
Proof.
  induction actions as [|a actions IH]; intros db Hk; [reflexivity|].
  rewrite db_after_cons, IH by assumption. now apply row_of_effect.
Qed.

(** After any run the table exists, and every row whose key is not
    ['startingVersion'] is as it was: the generator creates the table when
    it is missing and touches one row only. *)
Theorem other_rows_are_untouched
    (streamTransactions : StreamArgs -> EventIterator)
    {S : Type} (body : S -> StreamEvent -> Completion S)
    (db : Database) (url apiKey : string) (s : S) (k : string) :
  k <> "startingVersion" ->
  is_Some (kv (final_db (streamAndPersistTransactions
                           streamTransactions body db url apiKey s))) /\
  row_of k (final_db (streamAndPersistTransactions
                        streamTransactions body db url apiKey s))
  = row_of k db.
Proof.
  intros Hk. split.
  - destruct (consumer_cases streamTransactions body db url apiKey s)
      as [(e & _ & ->)|(z & _ & ->)]; cbn [after final_db].
    + apply exec_create_table_exists.
    + rewrite loop_final_db. apply db_after_exists, exec_create_table_exists.
  - rewrite consumer_final_db. now apply row_of_db_after.
Qed.

Lemma other_rows_are_untouched_witness :
  "theme" <> "startingVersion" /\
  row_of "theme" (final_db (main_01_sqlite testnet_node shared_store "key"))
  = Some (VString "dark") /\
  checkpoint (final_db (main_01_sqlite testnet_node shared_store "key"))
  = Some (VBigInt 105).
Proof.
  split; [discriminate|].
  destruct (other_rows_are_untouched
              testnet_node main_body shared_store
              "grpc.testnet.aptoslabs.com:443" "key" [] "theme")
    as [_ Hrow]; [discriminate|].
  split; [unfold main_01_sqlite; rewrite Hrow; reflexivity|].
  vm_compute; reflexivity.
Defined.

(** ** Which batches have their checkpoint *)

Lemma yields_cons_yield event (t : list Action) :
  yields (Yield event :: t) = event :: yields t.
Proof. reflexivity. Qed.

Lemma batches_cons_other event (evs : list StreamEvent) :
  event_type event <> "data" -> batches (event :: evs) = batches evs.
Proof. now destruct event. Qed.

Lemma batches_singleton event : (length (batches [event]) <= 1)%nat.
Proof. destruct event; cbn; lia. Qed.

(** In the loop the writes follow the batches one by one: all the batches
    yielded have their next version written, but possibly the last one. *)
Lemma loop_persisted {S : Type} (body : S -> StreamEvent -> Completion S)
    (stream : EventIterator) : forall db s,
  exists persisted unpersisted,
    batches (yields (trace (generator_loop body stream db s)))
    = persisted ++ unpersisted /\
    map nextStartingVersion persisted
    = map inr (writes (trace (generator_loop body stream db s))) /\
    (length unpersisted <= 1)%nat /\
    (forall s', outcome (generator_loop body stream db s) = Finished s' \/
                outcome (generator_loop body stream db s) = Waiting s' ->
                unpersisted = []).
Proof.
  induction stream as [| | |ev rest IH]; intros db s; cbn [generator_loop];
    try solve [exists [], []; cbn; repeat split; auto].
  assert (Hstop : forall out : Outcome S,
             (forall s', out <> Finished s') -> (forall s', out <> Waiting s') ->
             exists persisted unpersisted,
               batches (yields [Yield ev; CloseStream]) = persisted ++ unpersisted /\
               map nextStartingVersion persisted = map inr (writes [Yield ev; CloseStream]) /\
               (length unpersisted <= 1)%nat /\
               (forall s', out = Finished s' \/ out = Waiting s' -> unpersisted = [])).
  { intros out Hf Hw. exists [], (batches [ev]).
    repeat split; [apply batches_singleton|].
    intros s' [H|H]; [now destruct (Hf s')|now destruct (Hw s')]. }
  destruct (body s ev) as [s1|s1|e]; cbn [trace outcome];
    [|apply (Hstop (Broke s1)); intros; discriminate
     |apply (Hstop (BodyThrew e)); intros; discriminate].
  destruct (persist ev db) as [e|[w db']] eqn:Hp; cbn [trace outcome];
    [apply (Hstop (SequenceThrew e)); intros; discriminate|].
  cbn [after trace outcome].
  destruct (IH db' s1) as (persisted & unpersisted & Hb & Hm & Hl & Hu).
  apply persist_inr in Hp as [(-> & -> & Hty)|(c & txs & n & -> & Hn & -> & Hq)].
  - exists persisted, unpersisted. cbn [app]. rewrite yields_cons_yield.
    rewrite batches_cons_other by assumption. auto.
  - exists (txs :: persisted), unpersisted.
    change (batches (yields ((Yield (EData c txs) :: [WriteCheckpoint n]) ++
                               trace (generator_loop body rest db' s1))))
      with (txs :: batches (yields (trace (generator_loop body rest db' s1)))).
    change (writes ((Yield (EData c txs) :: [WriteCheckpoint n]) ++
                      trace (generator_loop body rest db' s1)))
      with (n :: writes (trace (generator_loop body rest db' s1))).
    rewrite Hb. cbn [map app]. rewrite Hn, Hm. auto.
Qed.

Lemma writes_consumer_trace row args (t : list Action) :
  writes ([CreateTable; ReadCheckpoint row; OpenStream args] ++ t) = writes t.
Proof. reflexivity. Qed.

(** At the end of any run of the resumable consumer, the values written
    are the next versions of the batches yielded, in order, for all the
    batches but possibly the last: at most one yielded batch has no
    checkpoint, and none when the run ended because the stream ended or
    is waiting for it. *)
Theorem at_most_one_batch_unpersisted
    (streamTransactions : StreamArgs -> EventIterator)
    {S : Type} (body : S -> StreamEvent -> Completion S)
    (db : Database) (url apiKey : string) (s : S) :
  exists persisted unpersisted,
    batches (yields (trace (streamAndPersistTransactions
                              streamTransactions body db url apiKey s)))
    = persisted ++ unpersisted /\
    map nextStartingVersion persisted
    = map inr (writes (trace (streamAndPersistTransactions
                                streamTransactions body db url apiKey s))) /\
    (length unpersisted <= 1)%nat /\
    (forall s',
        outcome (streamAndPersistTransactions streamTransactions body db url apiKey s)
        = Finished s' \/
        outcome (streamAndPersistTransactions streamTransactions body db url apiKey s)
        = Waiting s' ->
        unpersisted = []).
Proof.
  destruct (consumer_cases streamTransactions body db url apiKey s)
    as [(e & _ & ->)|(z & _ & ->)]; cbn [after trace outcome].
  - exists [], []. cbn. repeat split; auto.
  - rewrite yields_consumer_trace, writes_consumer_trace. apply loop_persisted.
Qed.

Lemma db_after_no_write (t : list Action) : forall db,
  writes t = [] -> checkpoint (db_after db t) = checkpoint db.
Proof.
  induction t as [|a t IH]; intros db Hw; [reflexivity|].
  rewrite db_after_cons.
  destruct a; try (rewrite IH by exact Hw; reflexivity).
  - rewrite IH by exact Hw. apply exec_create_table_checkpoint.
  - discriminate.
Qed.

(** When a run ends because the stream ended, or is waiting for the
    stream, the store holds the next version of the last batch that was
    yielded, whatever the versions of the batches before it; without any
    batch the checkpoint is the one the run started with. *)
Theorem final_checkpoint_of_completed_run
    (streamTransactions : StreamArgs -> EventIterator)
    {S : Type} (body : S -> StreamEvent -> Completion S)
    (db : Database) (url apiKey : string) (s s' : S) :
  outcome (streamAndPersistTransactions streamTransactions body db url apiKey s)
  = Finished s' \/
  outcome (streamAndPersistTransactions streamTransactions body db url apiKey s)
  = Waiting s' ->
  match last (batches (yields (trace (streamAndPersistTransactions
                                        streamTransactions body db url apiKey s)))) with
  | Some transactions =>
      exists ver,
        nextStartingVersion transactions = inr ver /\
        checkpoint (final_db (streamAndPersistTransactions
                                streamTransactions body db url apiKey s))
        = Some (VBigInt ver)
  | None =>
      checkpoint (final_db (streamAndPersistTransactions
                              streamTransactions body db url apiKey s))
      = checkpoint db
  end.
Proof.
  rewrite consumer_final_db.
  destruct (consumer_cases streamTransactions body db url apiKey s)
    as [(e & _ & ->)|(z & _ & ->)]; cbn [after trace outcome];
    [intros [Ho|Ho]; discriminate Ho|].
  intros Ho.
  rewrite yields_consumer_trace, db_after_app, !db_after_cons.
  cbn [db_after foldl effect].
  destruct (loop_persisted body
              (streamTransactions {| url := url; apiKey := apiKey;
                                     startingVersion := z |})
              (exec_create_table db) s)
    as (persisted & unpersisted & Hb & Hm & _ & Hu).
  rewrite (Hu s' Ho), app_nil_r in Hb. rewrite Hb.
  destruct (last persisted) as [txs|] eqn:Hl.
  - pose proof (f_equal last Hm) as Hlast.
    change (map nextStartingVersion persisted) with (nextStartingVersion <$> persisted) in Hlast.
    change (map inr ?l) with (inr (A:=Thrown) <$> l) in Hlast.
    rewrite !fmap_last, Hl in Hlast. cbn in Hlast.
    destruct (last (writes _)) as [ver|] eqn:Hw; [|discriminate Hlast].
    injection Hlast as Hn. exists ver. split; [exact Hn|].
    apply db_after_last_write;
      [apply exec_create_table_exists|apply loop_writes_fit|exact Hw].
  - apply last_None in Hl. rewrite Hl in Hm. cbn [map] in Hm.
    symmetry in Hm. apply List.map_eq_nil in Hm.
    now rewrite db_after_no_write, exec_create_table_checkpoint.
Qed.

Lemma final_checkpoint_of_completed_run_witness :
  outcome (main_01_sqlite two_batch_node (store_holding (VBigInt 100)) "key")
  = Finished [console_debug "Got 5 transaction(s) from version 100 to 104.";
              console_log "m";
              console_debug "Got 5 transaction(s) from version 105 to 109."] /\
  exists ver,
    nextStartingVersion (batch_from 105) = inr ver /\
    checkpoint (final_db (main_01_sqlite two_batch_node
                            (store_holding (VBigInt 100)) "key"))
    = Some (VBigInt ver).
Proof.
  split; [vm_compute; reflexivity|].
  refine (final_checkpoint_of_completed_run
            two_batch_node main_body (store_holding (VBigInt 100))
            "grpc.testnet.aptoslabs.com:443" "key" [] _ (or_introl _)).
  vm_compute; reflexivity.
Defined.

(** ** The generator and the bare stream *)

Lemma yields_app (a b : list Action) : yields (a ++ b) = yields a ++ yields b.
Proof. apply omap_app. Qed.

(** On a database in which the table exists, and on a stream whose batches
    all have a next version that the store accepts, the loop over the
    generator hands the consumer the events that a loop over the stream
    itself hands it, and is left in the same way. *)
Lemma loop_as_for_await {S : Type} (body : S -> StreamEvent -> Completion S)
    (stream : EventIterator) : forall db s,
  is_Some (kv db) ->
  (forall chainId transactions,
      In (EData chainId transactions) (events stream) ->
      exists next,
        nextStartingVersion transactions = inr next /\ fits_int64 next = true) ->
  yields (trace (generator_loop body stream db s)) = (for_await body stream s).1 /\
  outcome (generator_loop body stream db s) = (for_await body stream s).2.
Proof.
  induction stream as [| | |ev rest IH]; intros db s Hkv Hver;
    cbn [generator_loop for_await]; try (split; reflexivity).
  destruct (body s ev) as [s1|s1|e]; try (split; reflexivity).
  assert (exists w db', persist ev db = inr (w, db') /\ is_Some (kv db')
                        /\ yields (Yield ev :: w) = [ev])
    as (w & db' & -> & Hkv' & Hw).
  { destruct ev as [c txs| | |]; cbn [persist]; eauto.
    destruct (Hver c txs) as (next & -> & Hfit); [now left|].
    destruct (query_run_exists next db Hkv Hfit) as [db' Hq]. rewrite Hq.
    apply query_run_checkpoint in Hq as [_ Hq]. eauto. }
  destruct (IH db' s1 Hkv') as [Hy Ho].
  { intros c txs Hin. apply (Hver c txs). now right. }
  cbn [after trace outcome].
  destruct (for_await body rest s1) as [seen out]. cbn [fst snd] in *.
  split; [|exact Ho].
  rewrite yields_app, Hw. cbn [app]. now f_equal.
Qed.

(** The resumable consumer is transparent as long as its upserts succeed:
    when the stored checkpoint is readable and every batch of the session
    ends with a transaction whose version plus 1 is a signed 64-bit
    integer, a loop over [streamAndPersistTransactions] sees the events,
    and ends in the way, of the same loop over [streamTransactions]
    started at the checkpoint. *)
Theorem consumer_is_transparent
    (streamTransactions : StreamArgs -> EventIterator)
    {S : Type} (body : S -> StreamEvent -> Completion S)
    (db : Database) (url apiKey : string) (s : S) (ver : Z) :
  BigInt (default (VBigInt 0) (checkpoint db)) = inr ver ->
  (forall chainId transactions,
      In (EData chainId transactions)
         (events (streamTransactions
                    {| url := url; apiKey := apiKey; startingVersion := ver |})) ->
      exists next,
        nextStartingVersion transactions = inr next /\ fits_int64 next = true) ->
  yields (trace (streamAndPersistTransactions streamTransactions body db url apiKey s))
  = (for_await body (streamTransactions
                       {| url := url; apiKey := apiKey; startingVersion := ver |}) s).1 /\
  outcome (streamAndPersistTransactions streamTransactions body db url apiKey s)
  = (for_await body (streamTransactions
                       {| url := url; apiKey := apiKey; startingVersion := ver |}) s).2.
Proof.
  intros Hb Hver.
  destruct (consumer_cases streamTransactions body db url apiKey s)
    as [(e & Hb' & _)|(z & Hb' & ->)]; [congruence|].
  assert (z = ver) as -> by congruence.
  cbn [after trace outcome]. rewrite yields_consumer_trace.
  apply loop_as_for_await; [apply exec_create_table_exists|exact Hver].
Qed.

(** 01_sqlite.ts on a fresh store sees what 00_basic.ts sees. *)
Lemma consumer_is_transparent_witness :
  BigInt (default (VBigInt 0) (checkpoint fresh_store)) = inr 0 /\
  yields (trace (main_01_sqlite two_batch_node fresh_store "key"))
  = (main_00_basic two_batch_node "key").1 /\
  outcome (main_01_sqlite two_batch_node fresh_store "key")
  = (main_00_basic two_batch_node "key").2.
Proof.
  split; [reflexivity|].
  apply (consumer_is_transparent
           two_batch_node main_body fresh_store
           "grpc.testnet.aptoslabs.com:443" "key" [] 0 eq_refl).
  intros chainId transactions Hin. cbn in Hin.
  destruct Hin as [[= _ <-]|[[=]|[[= _ <-]|[]]]]; eexists; split; reflexivity.
Defined.

(** With the largest version of SQLite's INTEGER as the last one of a
    batch the two examples part: 00_basic.ts goes on to the next event,
    01_sqlite.ts ends with a [RangeError]. *)
Example examples_part_at_last_int64 :
  main_00_basic last_int64_node "key"
  = ([EData 2 [tx (2 ^ 63 - 2); tx (2 ^ 63 - 1)]; EStatus "late"],
     Finished [console_debug
                 "Got 2 transaction(s) from version 9223372036854775806 to 9223372036854775807.";
               console_log "late"]) /\
  outcome (main_01_sqlite last_int64_node fresh_store "key")
  = SequenceThrew RangeError.
Proof. split; vm_compute; reflexivity. Qed.

(** ** The loop of 00_basic.ts *)

(** A loop over the stream gives its body the events of the stream in
    order, each in the state that the body left at the event before:
    either all of them, the loop then being left as the stream ended (its
    end, its rejection, or still open) in the state reached; or the events
    up to and including the first one at which the body breaks or throws,
    the loop being left by that [break] or exception. *)
Theorem for_await_sees_the_stream_in_order
    {S : Type} (body : S -> StreamEvent -> Completion S)
    (stream : EventIterator) (s : S) :
  (exists s',
      advance body s (events stream) = Some s' /\
      (for_await body stream s).1 = events stream /\
      (for_await body stream s).2 = end_of stream s') \/
  (exists earlier event later s0,
      events stream = earlier ++ event :: later /\
      (for_await body stream s).1 = earlier ++ [event] /\
      advance body s earlier = Some s0 /\
      ((exists s', body s0 event = Break s' /\
                   (for_await body stream s).2 = Broke s') \/
       (exists e, body s0 event = Throw e /\
                  (for_await body stream s).2 = BodyThrew e))).
Proof.
  revert s. induction stream as [| | |ev rest IH]; intros s; cbn [for_await events];
    try (left; exists s; repeat split; reflexivity).
  destruct (body s ev) as [s1|s1|e] eqn:Hb.
  - specialize (IH s1).
    destruct (for_await body rest s1) as [seen out]. cbn [fst snd] in *.
    destruct IH as [(s' & Ha & Hs & Ho)|(earlier & event & later & s0 & He & Hs & Ha & Hstop)].
    + left. exists s'. cbn [advance end_of]. rewrite Hb, Hs. auto.
    + right. exists (ev :: earlier), event, later, s0.
      cbn [advance app]. rewrite Hb, Hs, He. auto.
  - right. exists [], ev, (events rest), s. repeat split. left. eauto.
  - right. exists [], ev, (events rest), s. repeat split. right. eauto.
Qed.

Lemma basic_chain_mismatch_is_fatal_witness :
  for_await main_body
    (mainnet_node {| url := "u"; apiKey := "key"; startingVersion := 0 |}) []
  = ([] ++ EData 1 (batch_from 0) :: [],
     BodyThrew (Error "Transaction stream returned a chainId of 1, but expected testnet chainId=2")) /\
  1 <> 2 /\
  (@nil StreamEvent = [] /\
   BodyThrew (S := list ConsoleLine)
     (Error "Transaction stream returned a chainId of 1, but expected testnet chainId=2")
   = BodyThrew (Error ("Transaction stream returned a chainId of "
                       +:+ showBigInt 1
                       +:+ ", but expected testnet chainId=2"))).
Proof.
  split; [reflexivity|]. split; [lia|].
  apply (basic_chain_mismatch_is_fatal
           (mainnet_node {| url := "u"; apiKey := "key"; startingVersion := 0 |})
           [] _ _ [] 1 (batch_from 0) [] eq_refl eq_refl).
  lia.
Defined.

Lemma main_body_console_line (console : list ConsoleLine) (event : StreamEvent) :
  (forall chainId transactions,
      event = EData chainId transactions -> chainId = 2 /\ transactions <> []) ->
  exists line,
    console_line event = Some line /\
    main_body console event = Normal (console ++ [line]).
Proof.
  intros Hd. destruct event as [c txs|e|m|st]; cbn [main_body console_line]; eauto.
  destruct (Hd c txs eq_refl) as [-> Hne].
  change (2 =? 2) with true. cbn [negb]. cbv iota.
  rewrite index_first, index_last.
  destruct (head txs) as [first|] eqn:Hh; [|now destruct txs].
  destruct (last txs) as [final|] eqn:Hl; [|now apply last_None in Hl].
  eauto.
Qed.

Lemma for_await_console (stream : EventIterator) : forall console0,
  (forall chainId transactions,
      In (EData chainId transactions) (events stream) ->
      chainId = 2 /\ transactions <> []) ->
  for_await main_body stream console0
  = (events stream,
     end_of stream (console0 ++ omap console_line (events stream))).
Proof.
  induction stream as [| | |ev rest IH]; intros console0 Hd; cbn [for_await events end_of];
    rewrite ?app_nil_r; try reflexivity.
  destruct (main_body_console_line console0 ev) as (line & Hline & ->).
  { intros c txs ->. apply Hd. now left. }
  rewrite IH by (intros c txs Hin; apply Hd; now right).
  change (omap console_line (ev :: events rest))
    with (match console_line ev with
          | Some y => y :: omap console_line (events rest)
          | None => omap console_line (events rest)
          end).
  rewrite Hline, <- app_assoc. reflexivity.
Qed.

(** On a stream whose batches are all of chain 2 and not empty, the loop
    of 00_basic.ts is stopped by no event: error, metadata and status
    events are logged with their payload like the batches, the body is
    given every event of the stream, and the loop is left as the stream
    ends, with one console line for each event, in order. *)
Theorem one_console_line_per_event
    (streamTransactions : StreamArgs -> EventIterator)
    (APTOS_API_KEY_TESTNET : string) :
  (forall chainId transactions,
      In (EData chainId transactions)
         (events (streamTransactions
                    {| url := "grpc.testnet.aptoslabs.com:443";
                       apiKey := APTOS_API_KEY_TESTNET;
                       startingVersion := 0 |})) ->
      chainId = 2 /\ transactions <> []) ->
  main_00_basic streamTransactions APTOS_API_KEY_TESTNET
  = (events (streamTransactions
               {| url := "grpc.testnet.aptoslabs.com:443";
                  apiKey := APTOS_API_KEY_TESTNET;
                  startingVersion := 0 |}),
     end_of (streamTransactions
               {| url := "grpc.testnet.aptoslabs.com:443";
                  apiKey := APTOS_API_KEY_TESTNET;
                  startingVersion := 0 |})
            (omap console_line
               (events (streamTransactions
                          {| url := "grpc.testnet.aptoslabs.com:443";
                             apiKey := APTOS_API_KEY_TESTNET;
                             startingVersion := 0 |})))).
Proof.
  intros Hd. unfold main_00_basic. now rewrite for_await_console.
Qed.

Lemma one_console_line_per_event_witness :
  main_00_basic
    (fun args => Next (EError "lag") (two_batch_node args)) "key"
  = ([EError "lag"; EData 2 (batch_from 0); EMetadata "m"; EData 2 (batch_from 5)],
     Finished [console_error "lag";
               console_debug "Got 5 transaction(s) from version 0 to 4.";
               console_log "m";
               console_debug "Got 5 transaction(s) from version 5 to 9."]).
Proof.
  apply (one_console_line_per_event
           (fun args => Next (EError "lag") (two_batch_node args)) "key").
  intros chainId transactions Hin. cbn in Hin.
  destruct Hin as [[=]|[[= <- <-]|[[=]|[[= <- <-]|[]]]]]; split;
    try reflexivity; discriminate.
Defined.

(** ** A version that the store cannot hold *)

(** In 01_sqlite.ts a batch of chain 2 whose last version plus 1 is no
    signed 64-bit integer is delivered and logged, but its checkpoint
    cannot be bound: the program ends there with a [RangeError], the
    stream is closed, and the store is as it was before the batch. *)
Theorem checkpoint_out_of_range_ends_run
    (streamTransactions : StreamArgs -> EventIterator)
    (db : Database) (APTOS_API_KEY_TESTNET : string)
    (pre : list Action) (transactions : list Transaction)
    (post : list Action) (next : Z) :
  trace (main_01_sqlite streamTransactions db APTOS_API_KEY_TESTNET)
  = pre ++ Yield (EData 2 transactions) :: post ->
  nextStartingVersion transactions = inr next ->
  fits_int64 next = false ->
  post = [CloseStream] /\
  outcome (main_01_sqlite streamTransactions db APTOS_API_KEY_TESTNET)
  = SequenceThrew RangeError /\
  final_db (main_01_sqlite streamTransactions db APTOS_API_KEY_TESTNET)
  = db_after db pre.
Proof.
  unfold main_01_sqlite. intros H Hn Hfit.
  destruct (consumer_at_yield _ _ _ _ _ _ _ _ _ H)
    as (rest & s0 & [t Hkv] & Ht & Hf & Ho).
  rewrite <- Hf, <- Ho. revert Ht. cbn [generator_loop persist]. rewrite Hn.
  unfold query_run. rewrite Hkv, Hfit.
  destruct (main_body_console_line s0 (EData 2 transactions)) as (line & _ & ->).
  { intros c txs [= <- <-]. split; [reflexivity|].
    intros ->. discriminate Hn. }
  cbn [trace final_db outcome]. now intros [= <-].
Qed.

Lemma checkpoint_out_of_range_ends_run_witness :
  trace (main_01_sqlite last_int64_node (store_holding (VBigInt 100)) "key")
  = [CreateTable; ReadCheckpoint (Some {| v := VBigInt 100 |});
     OpenStream {| url := "grpc.testnet.aptoslabs.com:443";
                   apiKey := "key"; startingVersion := 100 |}]
    ++ Yield (EData 2 [tx (2 ^ 63 - 2); tx (2 ^ 63 - 1)]) :: [CloseStream] /\
  nextStartingVersion [tx (2 ^ 63 - 2); tx (2 ^ 63 - 1)] = inr (2 ^ 63) /\
  fits_int64 (2 ^ 63) = false /\
  outcome (main_01_sqlite last_int64_node (store_holding (VBigInt 100)) "key")
  = SequenceThrew RangeError /\
  checkpoint (final_db (main_01_sqlite last_int64_node
                          (store_holding (VBigInt 100)) "key"))
  = Some (VBigInt 100).
Proof.
  split; [vm_compute; reflexivity|]. split; [reflexivity|]. split; [reflexivity|].
  destruct (checkpoint_out_of_range_ends_run
              last_int64_node (store_holding (VBigInt 100)) "key"
              [CreateTable; ReadCheckpoint (Some {| v := VBigInt 100 |});
               OpenStream {| url := "grpc.testnet.aptoslabs.com:443";
                             apiKey := "key"; startingVersion := 100 |}]
              [tx (2 ^ 63 - 2); tx (2 ^ 63 - 1)] [CloseStream] (2 ^ 63))
    as (_ & Ho & Hf); [vm_compute; reflexivity | reflexivity | reflexivity |].
  split; [exact Ho|]. rewrite Hf. vm_compute; reflexivity.
Defined.

(** ** The shape of a run *)

Lemma loop_close_is_last {S : Type} (body : S -> StreamEvent -> Completion S)
    (stream : EventIterator) : forall db s pre post,
  trace (generator_loop body stream db s) = pre ++ CloseStream :: post ->
  post = [].
Proof.
  induction stream as [| | |ev rest IH]; intros db s pre post;
    try (cbn [generator_loop trace]; intros H; destruct pre; discriminate).
  cbn [generator_loop].
  assert (Hstop : [Yield ev; CloseStream] = pre ++ CloseStream :: post -> post = []).
  { intros H. destruct pre as [|? [|? [|? ?]]]; try discriminate.
    now injection H. }
  destruct (body s ev) as [s'|s'|e]; try exact Hstop.
  destruct (persist ev db) as [e|[w db']] eqn:Hp; [exact Hstop|].
  cbn [after trace]. intros H.
  destruct pre as [|a pre]; [discriminate|]. injection H as <- H.
  apply persist_inr in Hp as [(-> & -> & _)|(c & txs & n & -> & _ & -> & Hq)].
  - exact (IH _ _ _ _ H).
  - destruct pre as [|a pre]; [discriminate|]. injection H as <- H.
    exact (IH _ _ _ _ H).
Qed.

(** Every run of the generator starts by creating the table and reading
    the checkpoint; it opens one session at most, never a second one after
    the stream failed; and once it has closed the stream it does nothing
    more. *)
Theorem shape_of_a_run
    (streamTransactions : StreamArgs -> EventIterator)
    {S : Type} (body : S -> StreamEvent -> Completion S)
    (db : Database) (url apiKey : string) (s : S) :
  (exists t,
      trace (streamAndPersistTransactions streamTransactions body db url apiKey s)
      = CreateTable :: ReadCheckpoint (Build_Row <$> checkpoint db) :: t) /\
  (length (opened (trace (streamAndPersistTransactions
                            streamTransactions body db url apiKey s))) <= 1)%nat /\
  (forall pre post,
      trace (streamAndPersistTransactions streamTransactions body db url apiKey s)
      = pre ++ CloseStream :: post ->
      post = []).
Proof.
  destruct (consumer_cases streamTransactions body db url apiKey s)
    as [(e & _ & ->)|(z & _ & ->)]; cbn [after trace].
  - split; [eauto|]. split; [cbn; lia|].
    intros pre post H. destruct pre as [|? [|? [|? ?]]]; discriminate.
  - split; [cbn [app]; eauto|]. split.
    + rewrite opened_consumer_trace, loop_opened. cbn. lia.
    + intros pre post H.
      destruct pre as [|? [|? [|? pre]]]; try discriminate.
      injection H as _ _ _ H. exact (loop_close_is_last _ _ _ _ _ _ H).
Qed.

(** ** Versions as decimal text *)

Lemma trimStart_no_space (cs : list ascii) :
  Forall (fun c => isStrWhiteSpaceChar c = false) cs -> trimStart cs = cs.
Proof. destruct cs as [|c cs]; [reflexivity|]. intros H. cbn. now rewrite (Forall_inv H). Qed.

Lemma trim_no_space (cs : list ascii) :
  Forall (fun c => isStrWhiteSpaceChar c = false) cs -> trim cs = cs.
Proof.
  intros H. unfold trim. rewrite (trimStart_no_space cs H).
  rewrite trimStart_no_space by now apply List.Forall_rev.
  apply rev_involutive.
Qed.

Lemma digits_no_space (d : Decimal.uint) :
  Forall (fun c => isStrWhiteSpaceChar c = false)
         (list_ascii_of_string (NilEmpty.string_of_uint d)).
Proof. induction d; cbn; constructor; auto. Qed.

Ltac next_digit k :=
  match goal with
  | IH : forall n : N, _ |- parseDigits 10 (Z.of_N ?n * 10 + _) _ = _ =>
      replace (Z.of_N n * 10 + Z.pos k)
        with (Z.of_N match n with
                     | N0 => Npos k
                     | Npos p => Npos (k + 10 * p)
                     end)
        by (destruct n; lia);
      rewrite IH; now destruct n
  end.

Lemma parseDigits_of_uint (d : Decimal.uint) : forall n : N,
  parseDigits 10 (Z.of_N n) (list_ascii_of_string (NilEmpty.string_of_uint d))
  = Some (Z.of_N match n with
                 | N0 => Pos.of_uint d
                 | Npos p => Npos (Pos.of_uint_acc d p)
                 end).
Proof.
  induction d as [|d IH|d IH|d IH|d IH|d IH|d IH|d IH|d IH|d IH|d IH]; intros n;
    cbn [NilEmpty.string_of_uint list_ascii_of_string parseDigits];
    [now destruct n|..].
  all: match goal with
       | |- context [digitValue ?c] =>
           let v := eval vm_compute in (digitValue c) in
           change (digitValue c) with v
       end; cbv iota beta.
  all: match goal with
       | |- context [?k <? 10] => change (k <? 10) with true
       end; cbv iota.
  - replace (Z.of_N n * 10 + 0)
      with (Z.of_N match n with N0 => 0%N | Npos p => Npos (10 * p) end)
      by (destruct n; lia).
    rewrite IH. now destruct n.
  - next_digit 1%positive.
  - next_digit 2%positive.
  - next_digit 3%positive.
  - next_digit 4%positive.
  - next_digit 5%positive.
  - next_digit 6%positive.
  - next_digit 7%positive.
  - next_digit 8%positive.
  - next_digit 9%positive.
Qed.

Lemma showBigInt_pos (p : positive) :
  showBigInt (Z.pos p) = NilEmpty.string_of_uint (Pos.to_uint p).
Proof.
  unfold showBigInt. cbn [Z.to_int NilZero.string_of_int].
  unfold NilZero.string_of_uint.
  destruct (Pos.to_uint p) eqn:E; try reflexivity.
  now apply DecimalPos.Unsigned.to_uint_nonnil in E.
Qed.

Lemma showBigInt_neg (p : positive) :
  showBigInt (Z.neg p) = String "-" (NilEmpty.string_of_uint (Pos.to_uint p)).
Proof.
  unfold showBigInt. cbn [Z.to_int NilZero.string_of_int].
  unfold NilZero.string_of_uint.
  destruct (Pos.to_uint p) eqn:E; try reflexivity.
  now apply DecimalPos.Unsigned.to_uint_nonnil in E.
Qed.

Lemma StringToBigInt_digits (d : Decimal.uint) :
  d <> Decimal.Nil ->
  StringToBigInt (NilEmpty.string_of_uint d) = Some (Z.of_N (Pos.of_uint d)) /\
  StringToBigInt (String "-" (NilEmpty.string_of_uint d))
  = Some (- Z.of_N (Pos.of_uint d)).
Proof.
  intros Hd. unfold StringToBigInt.
  rewrite (trim_no_space _ (digits_no_space d)).
  assert (Hneg : Forall (fun c => isStrWhiteSpaceChar c = false)
                   (list_ascii_of_string (String "-" (NilEmpty.string_of_uint d))))
    by (constructor; [reflexivity|apply digits_no_space]).
  rewrite (trim_no_space _ Hneg).
  pose proof (parseDigits_of_uint d 0) as Hp. cbn [Z.of_N] in Hp.
  split.
  - rewrite <- Hp. destruct d as [|d|d|d|d|d|d|d|d|d|d]; [now destruct Hd|..];
      destruct d; reflexivity.
  - cbn [list_ascii_of_string]. revert Hp.
    destruct (list_ascii_of_string (NilEmpty.string_of_uint d)) as [|c1 ds] eqn:E.
    + destruct d; [now destruct Hd|discriminate E..].
    + intros Hp.
      change (Z.opp <$> parseDigits 10 0 (c1 :: ds) = Some (- Z.of_N (Pos.of_uint d))).
      now rewrite Hp.
Qed.

(** [BigInt] reads the decimal text of an integer back as that integer. *)
Lemma BigInt_of_decimal_text (z : Z) : BigInt (VString (showBigInt z)) = inr z.
Proof.
  cbn [BigInt]. destruct z as [|p|p].
  - reflexivity.
  - rewrite showBigInt_pos.
    destruct (StringToBigInt_digits (Pos.to_uint p)) as [-> _];
      [apply DecimalPos.Unsigned.to_uint_nonnil|].
    now rewrite DecimalPos.Unsigned.of_to.
  - rewrite showBigInt_neg.
    destruct (StringToBigInt_digits (Pos.to_uint p)) as [_ ->];
      [apply DecimalPos.Unsigned.to_uint_nonnil|].
    now rewrite DecimalPos.Unsigned.of_to.
Qed.

(** The column [v] has no type: when the store returns the version as its
    decimal text (what a template literal prints for a bigint), the
    session starts at that version. *)
Theorem decimal_text_checkpoint_resumes
    (streamTransactions : StreamArgs -> EventIterator)
    {S : Type} (body : S -> StreamEvent -> Completion S)
    (db : Database) (url apiKey : string) (s : S) (ver : Z) :
  checkpoint db = Some (VString (showBigInt ver)) ->
  opened (trace (streamAndPersistTransactions streamTransactions body db url apiKey s))
  = [{| url := url; apiKey := apiKey; startingVersion := ver |}].
Proof.
  intros Hc. apply consumer_opens. rewrite Hc. apply BigInt_of_decimal_text.
Qed.

Lemma decimal_text_checkpoint_resumes_witness :
  checkpoint (store_holding (VString "18446744073709551615"))
  = Some (VString (showBigInt 18446744073709551615)) /\
  opened (trace (main_01_sqlite testnet_node
                   (store_holding (VString "18446744073709551615")) "key"))
  = [{| url := "grpc.testnet.aptoslabs.com:443"; apiKey := "key";
        startingVersion := 18446744073709551615 |}].
Proof.
  split; [reflexivity|].
  apply (decimal_text_checkpoint_resumes
           testnet_node main_body
           (store_holding (VString "18446744073709551615"))
           "grpc.testnet.aptoslabs.com:443" "key" [] 18446744073709551615).
  reflexivity.
Defined.

(** ** How the loop of 01_sqlite.ts can be left by its body *)

Lemma main_body_result (console : list ConsoleLine) (event : StreamEvent) :
  (exists console', main_body console event = Normal console') \/
  main_body console event = Throw TypeError \/
  exists chainId,
    chainId <> 2 /\
    main_body console event
    = Throw (Error ("Transaction stream returned a chainId of "
                    +:+ showBigInt chainId
                    +:+ ", but expected testnet chainId=2")).
Proof.
  destruct event as [c txs|e|m|st]; cbn [main_body]; eauto.
  destruct (Z.eqb_spec c 2) as [->|Hne]; cbn [negb]; [|eauto].
  destruct (index txs 0); [|auto].
  destruct (index txs _); eauto.
Qed.

(** The body of the loop of 01_sqlite.ts never breaks out of it, and the
    only exceptions it ends the program with are the [Error] that names a
    chain other than 2 and the [TypeError] of an empty batch. *)
Theorem main_01_sqlite_body_failures
    (streamTransactions : StreamArgs -> EventIterator)
    (db : Database) (APTOS_API_KEY_TESTNET : string) :
  (forall console,
      outcome (main_01_sqlite streamTransactions db APTOS_API_KEY_TESTNET)
      <> Broke console) /\
  (forall e,
      outcome (main_01_sqlite streamTransactions db APTOS_API_KEY_TESTNET)
      = BodyThrew e ->
      e = TypeError \/
      exists chainId,
        chainId <> 2 /\
        e = Error ("Transaction stream returned a chainId of "
                   +:+ showBigInt chainId
                   +:+ ", but expected testnet chainId=2")).
Proof.
  unfold main_01_sqlite.
  destruct (consumer_cases streamTransactions main_body db
              "grpc.testnet.aptoslabs.com:443" APTOS_API_KEY_TESTNET [])
    as [(e0 & _ & ->)|(z & _ & ->)]; cbn [after outcome];
    [split; intros; discriminate|].
  destruct (loop_left_by_body main_body
              (streamTransactions
                 {| url := "grpc.testnet.aptoslabs.com:443";
                    apiKey := APTOS_API_KEY_TESTNET; startingVersion := z |})
              (exec_create_table db) [])
    as [[Hb Ht]|(pre & event & s0 & _ & _ & Hout)].
  - split; [exact Hb|]. intros e He. now destruct (Ht e).
  - destruct (outcome _) as [c|c|e|e|c]; try contradiction.
    + destruct (main_body_result s0 event) as [[c' H]|[H|(ch & _ & H)]];
        congruence.
    + split; [intros; discriminate|]. intros e' [= <-].
      destruct (main_body_result s0 event) as [[c' H]|[H|(ch & Hne & H)]];
        [congruence|left; congruence|right; exists ch; split; [exact Hne|congruence]].
Qed.
